(** * wproxy: a GitHub-aware HTTP forwarding proxy (src/main.py)

    Shallow embedding of [src/main.py] and the properties of its proxy
    pipeline.

    Conventions.
    - A Python [str] is a [string]: the sequence of bytes of its UTF-8
      encoding.  Every character the program inspects ('/', ':', '%', line
      feed, ASCII letters) is one byte that never occurs inside a multi-byte
      sequence, so the byte-wise definitions below agree with the
      code-point-wise ones of Python on well-formed text.  The one place
      that looks at whole characters is the latin-1 encoding of reply
      headers ([Str.encodes_latin1]), which reads the UTF-8 sequences.
    - [bytes] (response bodies) are [string]s as well.
    - Python [int]s are [Z]; readings of the cache clock are [Z] ticks.
    - Library code that the program calls but does not contain (re, httpx
      headers, cachetools, the Starlette router and response constructors,
      the routes FastAPI adds for itself) is modelled next to the
      function that uses it; [unquote], [urlparse], [str.strip] and [int] are
      taken through the interface [PyLib]. *)

From Stdlib Require Import String Ascii List ZArith Lia Bool Arith.
Import ListNotations.
Open Scope string_scope.

(* ================================================================== *)
(** * Strings *)

Module Str.

(** [s[n:]] *)
Fixpoint drop (n : nat) (s : string) : string :=
  match n, s with
  | O, _ => s
  | S n', String _ s' => drop n' s'
  | S _, EmptyString => EmptyString
  end.

(** [s[:n]] *)
Fixpoint take (n : nat) (s : string) : string :=
  match n, s with
  | O, _ => EmptyString
  | S n', String c s' => String c (take n' s')
  | S _, EmptyString => EmptyString
  end.

(** If [s] starts with [p], what follows [p] in [s]. *)
Fixpoint eat (p s : string) : option string :=
  match p, s with
  | EmptyString, _ => Some s
  | String a p', String b s' => if Ascii.eqb a b then eat p' s' else None
  | String _ _, EmptyString => None
  end.

(** [s.startswith(p)] *)
Definition startswith (s p : string) : bool :=
  match eat p s with Some _ => true | None => false end.

Definition is_upper (c : ascii) : bool :=
  let n := nat_of_ascii c in (65 <=? n)%nat && (n <=? 90)%nat.

Definition is_lower (c : ascii) : bool :=
  let n := nat_of_ascii c in (97 <=? n)%nat && (n <=? 122)%nat.

(** ASCII lower-casing of one byte. *)
Definition lower_char (c : ascii) : ascii :=
  if is_upper c then ascii_of_nat (nat_of_ascii c + 32) else c.

Fixpoint lower (s : string) : string :=
  match s with
  | EmptyString => EmptyString
  | String c s' => String (lower_char c) (lower s')
  end.

(** Every byte of [s] satisfies [p]. *)
Fixpoint all (p : ascii -> bool) (s : string) : bool :=
  match s with
  | EmptyString => true
  | String c s' => p c && all p s'
  end.

(** [sep.join(l)] *)
Fixpoint join (sep : string) (l : list string) : string :=
  match l with
  | [] => EmptyString
  | [x] => x
  | x :: l' => x ++ sep ++ join sep l'
  end.

(** Python truthiness of a [str]. *)
Definition truthy (s : string) : bool :=
  match s with EmptyString => false | String _ _ => true end.

(** [s.encode("latin-1")] succeeds: every character of [s] is at most
    U+00FF.  In UTF-8 such a character is one byte below 0x80, or the byte
    0xC2 or 0xC3 and the byte after it; every other sequence is a character
    above U+00FF, for which [encode] raises [UnicodeEncodeError]. *)
Fixpoint encodes_latin1 (s : string) : bool :=
  match s with
  | EmptyString => true
  | String c s' =>
      let n := nat_of_ascii c in
      if (n <? 128)%nat then encodes_latin1 s'
      else
        match s' with
        | String _ s'' =>
            if (n =? 194)%nat || (n =? 195)%nat then encodes_latin1 s''
            else false
        | EmptyString => false
        end
  end.

(** [s.lower().encode("latin-1")] succeeds.  [str.lower] keeps the
    characters up to U+00FF among themselves, and it takes four characters
    from above into them: U+0178 (to U+00FF), U+1E9E (to U+00DF), U+212A (to
    "k") and U+212B (to U+00E5), in UTF-8 the sequences C5 B8, E1 BA 9E,
    E2 84 AA and E2 84 AB.  Every other character is lowered to characters
    of which one is above U+00FF. *)
Fixpoint lower_encodes_latin1 (s : string) : bool :=
  match s with
  | EmptyString => true
  | String c s' =>
      let n := nat_of_ascii c in
      if (n <? 128)%nat then lower_encodes_latin1 s'
      else
        match s' with
        | String d s'' =>
            let m := nat_of_ascii d in
            if (n =? 194)%nat || (n =? 195)%nat
               || ((n =? 197)%nat && (m =? 184)%nat)
            then lower_encodes_latin1 s''
            else
              match s'' with
              | String e s''' =>
                  let o := nat_of_ascii e in
                  if ((n =? 225)%nat && (m =? 186)%nat && (o =? 158)%nat)
                     || ((n =? 226)%nat && (m =? 132)%nat
                         && ((o =? 170)%nat || (o =? 171)%nat))
                  then lower_encodes_latin1 s'''
                  else false
              | EmptyString => false
              end
        | EmptyString => false
        end
  end.

End Str.

(* ================================================================== *)
(** * Regular expressions (the part of Python's [re] the program uses)

    A backtracking matcher in continuation-passing style.  Repetition is
    greedy and ranges over a set of single characters, which is all that
    [gh_blob_regex], [gh_tree_regex] and the route patterns need. *)

Module Re.

Inductive charset : Type :=
| AnyButNewline            (* [.]   without DOTALL: anything but line feed *)
| NotChar (c : ascii).     (* [[^c]] *)

Inductive regex : Type :=
| Eps
| Bol                      (* [^] *)
| Eol                      (* [$] *)
| Lit (c : ascii)
| Opt (r : regex)          (* [(?:r)?], greedy *)
| Plus (cs : charset)      (* [cs+], greedy *)
| Star (cs : charset)      (* [cs*], greedy *)
| Seq (r1 r2 : regex)
| Group (r : regex).       (* [(r)]: capturing *)

Definition LF : ascii := "010"%char.

Definition in_charset (cs : charset) (c : ascii) : bool :=
  match cs with
  | AnyButNewline => negb (Ascii.eqb c LF)
  | NotChar d => negb (Ascii.eqb c d)
  end.

(** [re.I] on a [str] pattern folds case by Unicode rules.  Besides the two
    ASCII forms, a pattern letter also matches the characters that
    lower-case to it or share its upper case: for i, U+0130 and U+0131; for
    s, U+017F; for k, U+212A (given here by their UTF-8 encodings). *)
Definition fold_extras (lo : ascii) : list string :=
  if Ascii.eqb lo "i" then
    [String "196" (String "176" ""); String "196" (String "177" "")]
  else if Ascii.eqb lo "s" then
    [String "197" (String "191" "")]
  else if Ascii.eqb lo "k" then
    [String "226" (String "132" (String "170" ""))]
  else [].

Fixpoint eat_any (ps : list string) (s : string) : option (nat * string) :=
  match ps with
  | [] => None
  | p :: ps' =>
      match Str.eat p s with
      | Some s' => Some (String.length p, s')
      | None => eat_any ps' s
      end
  end.

(** One literal of the pattern against the head of the subject: the number
    of bytes it takes and what is left of the subject, when it matches. *)
Definition eat_lit (ignorecase : bool) (c : ascii) (s : string)
  : option (nat * string) :=
  match s with
  | EmptyString => None
  | String d s' =>
      if ignorecase then
        if Ascii.eqb (Str.lower_char d) (Str.lower_char c) then Some (1%nat, s')
        else eat_any (fold_extras (Str.lower_char c)) s
      else
        if Ascii.eqb d c then Some (1%nat, s') else None
  end.

(** [$] without MULTILINE: at the end, or just before a final line feed. *)
Definition at_eol (s : string) : bool :=
  match s with
  | EmptyString => true
  | String c EmptyString => Ascii.eqb c LF
  | _ => false
  end.

Section Loops.
Context {R : Type}.
Variable p : ascii -> bool.

(** Greedy [p*]: take as many as possible, then give characters back one
    by one until the rest of the pattern matches. *)
Fixpoint star_loop (pos : nat) (s : string)
         (k : nat -> string -> option R) : option R :=
  match s with
  | String c s' =>
      if p c then
        match star_loop (S pos) s' k with
        | Some r => Some r
        | None => k pos s
        end
      else k pos s
  | EmptyString => k pos s
  end.

Definition plus_loop (pos : nat) (s : string)
           (k : nat -> string -> option R) : option R :=
  match s with
  | String c s' => if p c then star_loop (S pos) s' k else None
  | EmptyString => None
  end.
End Loops.

(** The matcher: [pos] bytes of the subject are consumed, [s] is what is
    left, [caps] the groups closed so far (in order), [k] the rest of the
    pattern. *)
Fixpoint run (ignorecase : bool) (r : regex) (pos : nat) (s : string)
         (caps : list string)
         (k : nat -> string -> list string -> option (list string))
  : option (list string) :=
  match r with
  | Eps => k pos s caps
  | Bol => if Nat.eqb pos 0 then k pos s caps else None
  | Eol => if at_eol s then k pos s caps else None
  | Lit c =>
      match eat_lit ignorecase c s with
      | Some (n, s') => k (n + pos)%nat s' caps
      | None => None
      end
  | Opt r1 =>
      match run ignorecase r1 pos s caps k with
      | Some res => Some res
      | None => k pos s caps
      end
  | Plus cs => plus_loop (in_charset cs) pos s (fun pos' s' => k pos' s' caps)
  | Star cs => star_loop (in_charset cs) pos s (fun pos' s' => k pos' s' caps)
  | Seq r1 r2 =>
      run ignorecase r1 pos s caps
          (fun pos' s' caps' => run ignorecase r2 pos' s' caps' k)
  | Group r1 =>
      run ignorecase r1 pos s caps
          (fun pos' s' caps' =>
             k pos' s' (caps' ++ [Str.take (pos' - pos) s])%list)
  end.

(** The literal text [t]. *)
Fixpoint lits (t : string) : regex :=
  match t with
  | EmptyString => Eps
  | String c t' => Seq (Lit c) (lits t')
  end.

Fixpoint seq (rs : list regex) : regex :=
  match rs with
  | [] => Eps
  | r :: rs' => Seq r (seq rs')
  end.

(** [pattern.match(s)]: [None] when there is no match, the groups
    ([m.groups()]) otherwise. *)
Definition re_match (ignorecase : bool) (r : regex) (s : string)
  : option (list string) :=
  run ignorecase r 0 s [] (fun _ _ caps => Some caps).

End Re.

Open Scope Z_scope.

(* ================================================================== *)
(** * Python values the program handles *)

(** A Python [dict] from [str] to [str], in insertion order. *)
Definition dict : Type := list (string * string).

Fixpoint dict_get (d : dict) (k : string) : option string :=
  match d with
  | [] => None
  | (k', v) :: d' => if String.eqb k' k then Some v else dict_get d' k
  end.

(** [d[k] = v]: overwrite in place, or insert at the end. *)
Fixpoint dict_set (d : dict) (k v : string) : dict :=
  match d with
  | [] => [(k, v)]
  | (k', v') :: d' =>
      if String.eqb k' k then (k', v) :: d' else (k', v') :: dict_set d' k v
  end.

(** Exceptions that no handler of main.py catches (the framework turns them
    into a 500 reply). *)
Inductive exn : Type :=
| ValueError (msg : string)
| KeyError (key : string)
| UnicodeEncodeError
| OtherException (name : string).

(** The standard-library functions the pipeline calls on its input and
    whose result it only passes on.  [None] stands for a raised
    [ValueError]. *)
Class PyLib : Type := {
  str_strip : string -> string;               (* [s.strip()] *)
  unquote : string -> string;                 (* [urllib.parse.unquote(s)] *)
  urlparse_scheme : string -> option string;  (* [urlparse(s).scheme] *)
  int_of_str : string -> option Z             (* [int(s)] *)
}.

(* ================================================================== *)
(** * httpx: response headers and the outcome of [client.get] *)

Module Httpx.

(** The header lines of a response, as received: (name, value). *)
Definition Headers : Type := list (string * string).

(** The values of the lines named [key], names compared in lower case. *)
Definition values_of (h : Headers) (key : string) : list string :=
  map snd
      (filter (fun kv => String.eqb (Str.lower (fst kv)) (Str.lower key)) h).

(** [h.get(key)]: the values of all lines named [key], joined by a comma
    and a space; [None] when there is no such line. *)
Definition get (h : Headers) (key : string) : option string :=
  match values_of h key with
  | [] => None
  | items => Some (Str.join ", " items)
  end.

Record Response : Type := {
  status_code : Z;
  headers : Headers;
  content : string
}.

(** [await client.get(u, headers=out_headers)] returns a response, raises
    an [httpx.RequestError] (connection, DNS, timeout, ...) or raises
    something else. *)
Inductive GetResult : Type :=
| Returned (resp : Response)
| RequestError (msg : string)
| Raised (e : exn).

(** [resp.aiter_bytes(chunk_size)] on a body that is already read:
    [content[i : i + chunk_size]] for [i] in
    [range(0, len(content), max(chunk_size, 1))]. *)
Fixpoint chunks_from (fuel chunk_size : nat) (content : string)
  : list string :=
  match fuel, content with
  | S fuel', String _ _ =>
      Str.take chunk_size content
        :: chunks_from fuel' chunk_size (Str.drop (Nat.max chunk_size 1) content)
  | _, _ => []
  end.

Definition aiter_bytes (chunk_size : nat) (content : string) : list string :=
  chunks_from (String.length content) chunk_size content.

End Httpx.

(* ================================================================== *)
(** * cachetools.TTLCache

    The items are kept in the order of the cache's [__links] (least
    recently used first), each with the clock reading at which it expires.
    The clock is monotonic and the time-to-live is fixed, so the items that
    [expire] walks over are exactly the expired ones. *)

Module TTLCache.

(** What main.py stores: [(content, picked, status)]. *)
Definition Value : Type := (string * dict * Z)%type.

Record t : Type := {
  maxsize : Z;
  ttl : Z;
  items : list (string * (Value * Z))
}.

Definition new (maxsize ttl : Z) : t :=
  {| maxsize := maxsize; ttl := ttl; items := [] |}.

Fixpoint find (key : string) (l : list (string * (Value * Z)))
  : option (Value * Z) :=
  match l with
  | [] => None
  | (k, x) :: l' => if String.eqb k key then Some x else find key l'
  end.

Definition remove (key : string) (l : list (string * (Value * Z)))
  : list (string * (Value * Z)) :=
  filter (fun kx => negb (String.eqb (fst kx) key)) l.

(** [key in cache]: present and not expired at the reading [now]; the
    order of the items is not touched. *)
Definition contains (c : t) (key : string) (now : Z) : bool :=
  match find key (items c) with
  | Some (_, expires) => now <? expires
  | None => false
  end.

(** [cache[key]]: the item moves to the most-recently-used end; an
    expired or missing item raises [KeyError]. *)
Definition getitem (c : t) (key : string) (now : Z) : (Value + exn) * t :=
  match find key (items c) with
  | Some (v, expires) =>
      let c' := {| maxsize := maxsize c; ttl := ttl c;
                   items := remove key (items c) ++ [(key, (v, expires))] |} in
      if now <? expires then (inl v, c') else (inr (KeyError key), c')
  | None => (inr (KeyError key), c)
  end.

(** [cache.expire(now)] *)
Definition expire (now : Z) (l : list (string * (Value * Z)))
  : list (string * (Value * Z)) :=
  filter (fun kx => now <? snd (snd kx)) l.

(** [cache[key] = value] at the reading [now]: expired items go first;
    a value does not fit a cache of size below one ([ValueError]); for a
    new key the least recently used items are popped while the cache is
    full; the item is (re)inserted at the end and expires at
    [now + ttl]. *)
Definition setitem (c : t) (key : string) (value : Value) (now : Z)
  : option exn * t :=
  let live := expire now (items c) in
  if maxsize c <? 1 then
    (Some (ValueError "value too large"),
     {| maxsize := maxsize c; ttl := ttl c; items := live |})
  else
    let kept :=
      match find key live with
      | Some _ => live
      | None =>
          skipn (Z.to_nat (Z.of_nat (List.length live) + 1 - maxsize c)) live
      end in
    (None,
     {| maxsize := maxsize c; ttl := ttl c;
        items := remove key kept ++ [(key, (value, now + ttl c))] |}).

End TTLCache.

(* ================================================================== *)
(** * Configuration and module-level state of main.py *)

Record Config : Type := {
  CACHE_TTL : Z;               (* GHPROXY_CACHE_TTL, default 60 *)
  CACHE_MAXSIZE : Z;           (* GHPROXY_CACHE_MAXSIZE, default 256 *)
  GHPROXY_USER_AGENT : string  (* the variable, or the default below *)
}.

Definition default_config : Config :=
  {| CACHE_TTL := 60;
     CACHE_MAXSIZE := 256;
     GHPROXY_USER_AGENT :=
       "Mozilla/5.0 (Windows NT 10.0; Win64; x64) ghproxy/1.0" |}.

Definition MAX_STREAM_CHUNK : nat := (64 * 1024)%nat.

(** [cache = TTLCache(maxsize=CACHE_MAXSIZE, ttl=CACHE_TTL) if CACHE_TTL > 0 else None] *)
Definition cache_at_start (cfg : Config) : option TTLCache.t :=
  if 0 <? CACHE_TTL cfg
  then Some (TTLCache.new (CACHE_MAXSIZE cfg) (CACHE_TTL cfg))
  else None.

(* ================================================================== *)
(** * Helper functions of main.py *)

Import Re.

(** [re.compile(r'^https?://(?:www\.)?github\.com/([^/]+)/([^/]+)/blob/(.+)$', re.I)] *)
Definition gh_blob_regex : regex :=
  seq [Bol; lits "http"; Opt (Lit "s"); lits "://"; Opt (lits "www.");
       lits "github.com/"; Group (Plus (NotChar "/")); Lit "/";
       Group (Plus (NotChar "/")); lits "/blob/";
       Group (Plus AnyButNewline); Eol].

(** [re.compile(r'^https?://(?:www\.)?github\.com/([^/]+)/([^/]+)/raw/(.+)$', re.I)] *)
Definition gh_tree_regex : regex :=
  seq [Bol; lits "http"; Opt (Lit "s"); lits "://"; Opt (lits "www.");
       lits "github.com/"; Group (Plus (NotChar "/")); Lit "/";
       Group (Plus (NotChar "/")); lits "/raw/";
       Group (Plus AnyButNewline); Eol].

(** [f"https://raw.githubusercontent.com/{owner}/{repo}/{rest}"] with
    [owner, repo, rest = m.groups()] *)
Definition raw_url (groups : list string) : string :=
  "https://raw.githubusercontent.com/" ++ nth 0 groups "" ++ "/"
    ++ nth 1 groups "" ++ "/" ++ nth 2 groups "".

Definition github_to_raw (url : string) : string :=
  match re_match true gh_blob_regex url with
  | Some groups => raw_url groups
  | None =>
      match re_match true gh_tree_regex url with
      | Some groups => raw_url groups
      | None => url
      end
  end.

Definition picked_names : list string :=
  ["content-type"; "content-length"; "accept-ranges"; "etag";
   "last-modified"; "cache-control"].

(** The loop of [pick_response_headers] over the names [names]. *)
Fixpoint pick_loop (resp_headers : Httpx.Headers) (names : list string)
         (hdrs : dict) : dict :=
  match names with
  | [] => hdrs
  | k :: names' =>
      let hdrs' :=
        match Httpx.get resp_headers k with
        | Some v => if Str.truthy v then dict_set hdrs k v else hdrs
        | None => hdrs
        end in
      pick_loop resp_headers names' hdrs'
  end.

Definition pick_response_headers (resp_headers : Httpx.Headers) : dict :=
  pick_loop resp_headers picked_names [].

(** [stream_response(resp)]: the chunks it yields. *)
Definition stream_response (resp : Httpx.Response) : list string :=
  Httpx.aiter_bytes MAX_STREAM_CHUNK (Httpx.content resp).

(* ================================================================== *)
(** * Starlette: the request, the replies and the router *)

Module Starlette.

(** The header lines of the inbound request, names in lower case as the
    server hands them over. *)
Record Request : Type := { headers : list (string * string) }.

(** [key in request.headers] and [request.headers[key]]: the first line
    whose name is [key.lower()]. *)
Definition header (request : Request) (key : string) : option string :=
  dict_get (headers request) (Str.lower key).

(** What an endpoint hands back to the framework: a response object that
    was built, an exception raised instead, or one of the pages that FastAPI
    serves by itself. *)
Inductive Reply : Type :=
| Response (content : string) (status_code : Z) (headers : dict)
| StreamingResponse (chunks : list string) (status_code : Z) (headers : dict)
| PlainTextResponse (content : string)
| Documentation (handler : string)
| HTTPException (status_code : Z) (detail : string)
| Uncaught (e : exn).

(** [Response.init_headers(headers)], called by the constructors of
    [Response] and of [StreamingResponse]: every name is lowered and
    encoded, every value is encoded, in latin-1.  [None]: no exception. *)
Definition init_headers (headers : dict) : option exn :=
  if forallb (fun kv => Str.lower_encodes_latin1 (fst kv)
                        && Str.encodes_latin1 (snd kv)) headers
  then None
  else Some UnicodeEncodeError.

(** [Response(content=content, status_code=status_code, headers=headers)]:
    the object, or the exception of [init_headers]. *)
Definition Response_init (content : string) (status_code : Z)
           (headers : dict) : Reply :=
  match init_headers headers with
  | None => Response content status_code headers
  | Some e => Uncaught e
  end.

(** [StreamingResponse(chunks, status_code=status_code, headers=headers)];
    the generator [chunks] has not run when the constructor raises. *)
Definition StreamingResponse_init (chunks : list string) (status_code : Z)
           (headers : dict) : Reply :=
  match init_headers headers with
  | None => StreamingResponse chunks status_code headers
  | Some e => Uncaught e
  end.

(** The path patterns of the routes, as [compile_path] builds them
    (matched case-sensitively): a path without parameters gives [^], the
    path escaped, [$];
    "/{url:path}" gives [^/], then a group [url] of
    any number of [.], then [$]; "/raw/{url:path}" gives [^/raw/], then
    the same group, then [$]. *)
Definition path_openapi : regex := seq [Bol; lits "/openapi.json"; Eol].
Definition path_docs : regex := seq [Bol; lits "/docs"; Eol].
Definition path_oauth2_redirect : regex :=
  seq [Bol; lits "/docs/oauth2-redirect"; Eol].
Definition path_redoc : regex := seq [Bol; lits "/redoc"; Eol].
Definition path_index : regex := seq [Bol; Lit "/"; Eol].
Definition path_proxy : regex :=
  seq [Bol; Lit "/"; Group (Star AnyButNewline); Eol].
Definition path_raw : regex :=
  seq [Bol; lits "/raw/"; Group (Star AnyButNewline); Eol].

(** The router tries the routes in the order of their registration and
    hands the request to the first one whose pattern matches the path;
    the result is that route and its path parameters. *)
Fixpoint first_match {E : Type} (routes : list (regex * E)) (path : string)
  : option (E * list string) :=
  match routes with
  | [] => None
  | (pattern, endpoint) :: routes' =>
      match re_match false pattern path with
      | Some params => Some (endpoint, params)
      | None => first_match routes' path
      end
  end.

End Starlette.

Import Starlette.

(** What a call does to the world besides replying. *)
Inductive Event : Type :=
| Fetch (url : string) (out_headers : dict)           (* [client.get] *)
| Store (cache_key : string) (value : TTLCache.Value). (* [cache[key] = ...] *)

(** [cache is not None and cache_key in cache] *)
Definition cache_hit (cache : option TTLCache.t) (cache_key : string)
           (now : Z) : bool :=
  match cache with
  | Some c => TTLCache.contains c cache_key now
  | None => false
  end.

(** Clock readings of the cache during one call, in program order. *)
Record Clock : Type := {
  at_contains : Z;   (* [cache_key in cache] *)
  at_getitem : Z;    (* [cache[cache_key]] *)
  at_setitem : Z     (* [cache[cache_key] = ...] *)
}.

Section Proxy.

Context {lib : PyLib}.
Variable cfg : Config.

Definition normalize_url_param (raw : string) : string :=
  let u := unquote (str_strip raw) in
  if Str.startswith u "/http://" || Str.startswith u "/https://"
  then Str.drop 1 u
  else u.

(** [None]: [urlparse] raised. *)
Definition allowed_scheme (url : string) : option bool :=
  match urlparse_scheme url with
  | Some scheme => Some (String.eqb scheme "http" || String.eqb scheme "https")
  | None => None
  end.

(** The URL that [do_proxy] looks up and fetches. *)
Definition target_url (url : string) (convert_github : bool) : string :=
  let u := normalize_url_param url in
  if convert_github then github_to_raw u else u.

Definition cache_key_of (u : string) : string := "proxy:" ++ u.

Definition out_headers_of (request : Request) : dict :=
  let out_headers :=
    match header request "range" with
    | Some v => dict_set [] "range" v
    | None => []
    end in
  dict_set out_headers "user-agent" (GHPROXY_USER_AGENT cfg).

(** The length a response declares: [int(resp.headers["content-length"])]
    when the header is there, not empty, and [int] accepts it. *)
Definition declared_length (resp : Httpx.Response) : option Z :=
  match Httpx.get (Httpx.headers resp) "content-length" with
  | Some v => if Str.truthy v then int_of_str v else None
  | None => None
  end.

(** [clen] of [do_proxy]: looked at only when there is a cache. *)
Definition content_length_of (cache : option TTLCache.t)
           (resp : Httpx.Response) : option Z :=
  match cache with
  | Some _ => declared_length resp
  | None => None
  end.

(** [do_proxy(request, url, convert_github)], run on the cache [cache]
    with the clock readings [clk] against the upstream [client_get]:
    the reply, the cache afterwards and what was done. *)
Definition do_proxy (cache : option TTLCache.t) (clk : Clock)
           (client_get : string -> dict -> Httpx.GetResult)
           (request : Request) (url : string) (convert_github : bool)
  : Reply * option TTLCache.t * list Event :=
  let u := normalize_url_param url in
  match allowed_scheme u with
  | None => (Uncaught (ValueError "urlparse"), cache, [])
  | Some false => (HTTPException 400 "Only http/https supported", cache, [])
  | Some true =>
      let u := if convert_github then github_to_raw u else u in
      let cache_key := cache_key_of u in
      match cache, cache_hit cache cache_key (at_contains clk) with
      | Some c, true =>
          match TTLCache.getitem c cache_key (at_getitem clk) with
          | (inl (content, headers, status), c') =>
              (Response_init content status headers, Some c', [])
          | (inr e, c') => (Uncaught e, Some c', [])
          end
      | _, _ =>
          let out_headers := out_headers_of request in
          match client_get u out_headers with
          | Httpx.RequestError e =>
              (HTTPException 502 ("Upstream request failed: " ++ e), cache,
               [Fetch u out_headers])
          | Httpx.Raised e => (Uncaught e, cache, [Fetch u out_headers])
          | Httpx.Returned resp =>
              let picked := pick_response_headers (Httpx.headers resp) in
              let status := Httpx.status_code resp in
              let clen := content_length_of cache resp in
              match cache, clen with
              | Some c, Some n =>
                  if n <=? 1048576 then
                    let content := Httpx.content resp in
                    match TTLCache.setitem c cache_key
                            (content, picked, status) (at_setitem clk) with
                    | (None, c') =>
                        (Response_init content status picked, Some c',
                         [Fetch u out_headers;
                          Store cache_key (content, picked, status)])
                    | (Some e, c') =>
                        (Uncaught e, Some c', [Fetch u out_headers])
                    end
                  else
                    (StreamingResponse_init (stream_response resp) status
                                            picked,
                     cache, [Fetch u out_headers])
              | _, _ =>
                  (StreamingResponse_init (stream_response resp) status picked,
                   cache, [Fetch u out_headers])
              end
          end
      end
  end.

(** The endpoints of the application.  [FastAPI(...)] is called without
    [openapi_url], [docs_url] or [redoc_url], so its [setup] first adds the
    routes of the OpenAPI schema and of its viewers, "/openapi.json",
    "/docs", "/docs/oauth2-redirect" and "/redoc"; the decorators of
    main.py add the other three after them, in the order of the file. *)
Inductive Endpoint : Type :=
| openapi | swagger_ui_html | swagger_ui_redirect | redoc_html
| index | proxy_path | raw_path.

Definition routes : list (regex * Endpoint) :=
  [(path_openapi, openapi); (path_docs, swagger_ui_html);
   (path_oauth2_redirect, swagger_ui_redirect); (path_redoc, redoc_html);
   (path_index, index); (path_proxy, proxy_path); (path_raw, raw_path)].

(** A GET request for [path] served by the application; [None] is the
    router's 404. *)
Definition app (cache : option TTLCache.t) (clk : Clock)
           (client_get : string -> dict -> Httpx.GetResult)
           (request : Request) (path : string)
  : option (Reply * option TTLCache.t * list Event) :=
  match first_match routes path with
  | None => None
  | Some (openapi, _) => Some (Documentation "openapi", cache, [])
  | Some (swagger_ui_html, _) =>
      Some (Documentation "swagger_ui_html", cache, [])
  | Some (swagger_ui_redirect, _) =>
      Some (Documentation "swagger_ui_redirect", cache, [])
  | Some (redoc_html, _) => Some (Documentation "redoc_html", cache, [])
  | Some (index, _) =>
      Some (PlainTextResponse
              "a high performance web proxy website based on python3",
            cache, [])
  | Some (proxy_path, params) =>
      Some (do_proxy cache clk client_get request (nth 0 params "") false)
  | Some (raw_path, params) =>
      Some (do_proxy cache clk client_get request (nth 0 params "") true)
  end.

End Proxy.

(* ================================================================== *)
(** * The standard library on ASCII text

    An instance of [PyLib] that follows CPython on text whose white space,
    digits and percent-escapes are ASCII; it is what the examples below run
    on.  Left out: white space and digits beyond ASCII, the replacement of
    ill-formed UTF-8 by [unquote], and the [ValueError]s of [urlparse] other
    than the one for an unbalanced bracket in the host. *)

Module CPython.

Definition is_space (c : ascii) : bool :=
  let n := nat_of_ascii c in
  ((9 <=? n) && (n <=? 13) || (28 <=? n) && (n <=? 32))%nat.

Fixpoint lstrip (p : ascii -> bool) (s : string) : string :=
  match s with
  | String c s' => if p c then lstrip p s' else s
  | EmptyString => s
  end.

Fixpoint rstrip (p : ascii -> bool) (s : string) : string :=
  match s with
  | String c s' =>
      match rstrip p s' with
      | EmptyString => if p c then EmptyString else String c EmptyString
      | r => String c r
      end
  | EmptyString => s
  end.

Definition strip (s : string) : string := rstrip is_space (lstrip is_space s).

Definition is_digit (c : ascii) : bool :=
  let n := nat_of_ascii c in ((48 <=? n) && (n <=? 57))%nat.

Definition hex_value (c : ascii) : option nat :=
  let n := nat_of_ascii c in
  if is_digit c then Some (n - 48)%nat
  else if ((65 <=? n) && (n <=? 70))%nat then Some (n - 55)%nat
  else if ((97 <=? n) && (n <=? 102))%nat then Some (n - 87)%nat
  else None.

(** A percent sign followed by two hexadecimal digits becomes the byte they
    name; any other percent sign stays. *)
Fixpoint unquote (s : string) : string :=
  match s with
  | EmptyString => EmptyString
  | String c rest =>
      if Ascii.eqb c "%" then
        match rest with
        | String a (String b s') =>
            match hex_value a, hex_value b with
            | Some x, Some y => String (ascii_of_nat (16 * x + y)) (unquote s')
            | _, _ => String c (unquote rest)
            end
        | _ => String c (unquote rest)
        end
      else String c (unquote rest)
  end.

Fixpoint find_char (c : ascii) (s : string) : option nat :=
  match s with
  | EmptyString => None
  | String d s' =>
      if Ascii.eqb d c then Some O
      else match find_char c s' with Some i => Some (S i) | None => None end
  end.

Fixpoint remove_chars (p : ascii -> bool) (s : string) : string :=
  match s with
  | EmptyString => EmptyString
  | String c s' => if p c then remove_chars p s' else String c (remove_chars p s')
  end.

Fixpoint take_while (p : ascii -> bool) (s : string) : string :=
  match s with
  | String c s' => if p c then String c (take_while p s') else EmptyString
  | EmptyString => EmptyString
  end.

Definition is_alpha (c : ascii) : bool := Str.is_upper c || Str.is_lower c.

(** [scheme_chars] of urllib.parse: letters, digits, [+], [-] and [.]. *)
Definition is_scheme_char (c : ascii) : bool :=
  is_alpha c || is_digit c
  || Ascii.eqb c "+" || Ascii.eqb c "-" || Ascii.eqb c ".".

Definition mem_char (c : ascii) (s : string) : bool :=
  match find_char c s with Some _ => true | None => false end.

(** [urlsplit]: leading C0 controls and spaces go, then tab, CR and LF
    anywhere; the scheme is the text before the first colon when it starts
    with a letter and consists of scheme characters, in lower case; the host
    part after [//] must not hold one bracket without the other. *)
Definition urlparse_scheme (url : string) : option string :=
  let url := lstrip (fun c => (nat_of_ascii c <=? 32)%nat) url in
  let url :=
    remove_chars
      (fun c => Ascii.eqb c "009" || Ascii.eqb c "013" || Ascii.eqb c "010") url in
  let '(scheme, rest) :=
    match find_char ":" url, url with
    | Some (S i), String c0 _ =>
        if is_alpha c0 && Str.all is_scheme_char (Str.take (S i) url)
        then (Str.lower (Str.take (S i) url), Str.drop (S (S i)) url)
        else (EmptyString, url)
    | _, _ => (EmptyString, url)
    end in
  let netloc :=
    if Str.startswith rest "//"
    then take_while
           (fun c => negb (Ascii.eqb c "/" || Ascii.eqb c "?" || Ascii.eqb c "#"))
           (Str.drop 2 rest)
    else EmptyString in
  if xorb (mem_char "[" netloc) (mem_char "]" netloc) then None
  else Some scheme.

(** The digits of [int(s)]: single underscores may separate digits. *)
Fixpoint digits (acc : Z) (after_digit : bool) (s : string) : option Z :=
  match s with
  | EmptyString => if after_digit then Some acc else None
  | String c s' =>
      if is_digit c
      then digits (10 * acc + Z.of_nat (nat_of_ascii c - 48)) true s'
      else if Ascii.eqb c "_" && after_digit then digits acc false s'
      else None
  end.

Definition int_of_str (s : string) : option Z :=
  match strip s with
  | String c s' =>
      if Ascii.eqb c "-" then option_map Z.opp (digits 0 false s')
      else if Ascii.eqb c "+" then digits 0 false s'
      else digits 0 false (String c s')
  | EmptyString => None
  end.

End CPython.

#[export] Instance cpython : PyLib := {|
  str_strip := CPython.strip;
  unquote := CPython.unquote;
  urlparse_scheme := CPython.urlparse_scheme;
  int_of_str := CPython.int_of_str
|}.

(* ================================================================== *)
(** * Vocabulary of the statements *)

(** The cache object of a process started with [cfg]: none when the
    time-to-live is not positive, otherwise a cache with the configured
    bounds (and whatever items it holds by now). *)
Definition configured (cfg : Config) (cache : option TTLCache.t) : Prop :=
  match cache with
  | Some c =>
      0 < CACHE_TTL cfg /\ TTLCache.ttl c = CACHE_TTL cfg
      /\ TTLCache.maxsize c = CACHE_MAXSIZE cfg
  | None => CACHE_TTL cfg <= 0
  end.

(** The byte [c] does not occur in [s]. *)
Definition no_char (c : ascii) (s : string) : bool :=
  Str.all (fun d => negb (Ascii.eqb d c)) s.

(** [s] is empty or starts with a byte outside [p]. *)
Definition stops (p : ascii -> bool) (s : string) : bool :=
  match s with EmptyString => true | String c _ => negb (p c) end.

(** Both GitHub patterns are [gh_head] followed by [gh_tail] of their
    keyword. *)
Definition gh_head (rest : regex) : regex :=
  Seq Bol (Seq (lits "http") (Seq (Opt (Lit "s")) (Seq (lits "://")
    (Seq (Opt (lits "www.")) (Seq (lits "github.com/") rest))))).

Definition gh_tail (keyword : string) : regex :=
  Seq (Group (Plus (NotChar "/"))) (Seq (Lit "/")
    (Seq (Group (Plus (NotChar "/"))) (Seq (lits keyword)
      (Seq (Group (Plus AnyButNewline)) (Seq Eol Eps))))).

(** The scheme-and-host spellings of a GitHub web URL, in lower case. *)
Definition github_prefixes : list string :=
  ["https://github.com/"; "http://github.com/";
   "https://www.github.com/"; "http://www.github.com/"].


(** The headers of a reply that has any. *)
Definition headers_of_reply (reply : Reply) : option dict :=
  match reply with
  | Response _ _ headers => Some headers
  | StreamingResponse _ _ headers => Some headers
  | _ => None
  end.

(** What [pick_response_headers] keeps of the name [k]. *)
Definition picked_of (resp_headers : Httpx.Headers) (k : string) : dict :=
  match Httpx.get resp_headers k with
  | Some v => if Str.truthy v then [(k, v)] else []
  | None => []
  end.

(** Requests, clocks and upstreams for the examples. *)
Module Example.

Definition plain : Request := {| Starlette.headers := [] |}.

Definition ranged : Request :=
  {| Starlette.headers := [("range", "bytes=0-4")] |}.

(** All three readings of a call at the tick [t]. *)
Definition clock (t : Z) : Clock :=
  {| at_contains := t; at_getitem := t; at_setitem := t |}.

Definition response (status : Z) (length body : string) : Httpx.Response :=
  {| Httpx.status_code := status;
     Httpx.headers := [("Content-Type", "text/plain");
                       ("Content-Length", length);
                       ("Set-Cookie", "id=1")];
     Httpx.content := body |}.

Definition upstream (resp : Httpx.Response) : string -> dict -> Httpx.GetResult :=
  fun _ _ => Httpx.Returned resp.

Definition upstream_down : string -> dict -> Httpx.GetResult :=
  fun _ _ => Httpx.RequestError "All connection attempts failed".

Definition url : string := "https://example.com/a.txt".

(** A first request, carrying a Range header, at tick 0 on the empty cache
    of the default configuration; upstream answers [status] with a body of
    five bytes. *)
Definition first (status : Z) : Reply * option TTLCache.t * list Event :=
  do_proxy default_config (cache_at_start default_config) (clock 0)
           (upstream (response status "5" "hello")) ranged url false.

(** A second request for the same URL at tick 59, on the cache the first
    one left; upstream is down by now. *)
Definition second (status : Z) : Reply * option TTLCache.t * list Event :=
  do_proxy default_config (snd (fst (first status))) (clock 59)
           upstream_down plain url false.

(** The same first request when upstream is down. *)
Definition failed : Reply * option TTLCache.t * list Event :=
  do_proxy default_config (cache_at_start default_config) (clock 0)
           upstream_down ranged url false.

(** A request whose response declares 2 MiB. *)
Definition large : Reply * option TTLCache.t * list Event :=
  do_proxy default_config (cache_at_start default_config) (clock 0)
           (upstream (response 200 "2097152" "hello")) plain url false.

(** The cache left by [first status], or an empty one if there is none. *)
Definition cache_after_first (status : Z) : TTLCache.t :=
  match snd (fst (first status)) with
  | Some c => c
  | None => TTLCache.new 0 0
  end.

End Example.

(** More runs for the examples. *)
Module Scenario.

(** Caching switched off. *)
Definition no_cache : Config :=
  {| CACHE_TTL := 0; CACHE_MAXSIZE := 256;
     GHPROXY_USER_AGENT := "ghproxy-test" |}.

Definition other_url : string := "https://example.com/b.txt".

(** A request at tick 60 for the URL that [Example.first] stored at tick 0. *)
Definition late : Reply * option TTLCache.t * list Event :=
  do_proxy default_config (snd (fst (Example.first 200))) (Example.clock 60)
           Example.upstream_down Example.plain Example.url false.

(** A request for another URL at tick 10, on the cache [Example.first]
    left. *)
Definition other : Reply * option TTLCache.t * list Event :=
  do_proxy default_config (snd (fst (Example.first 200))) (Example.clock 10)
           (Example.upstream (Example.response 200 "3" "abc"))
           Example.plain other_url false.

(** A request with caching switched off. *)
Definition uncached : Reply * option TTLCache.t * list Event :=
  do_proxy no_cache None (Example.clock 0)
           (Example.upstream (Example.response 200 "5" "hello"))
           Example.plain Example.url false.

(** Caching switched on with [GHPROXY_CACHE_MAXSIZE=0]: a cache without
    room for an item. *)
Definition no_room : Config :=
  {| CACHE_TTL := 60; CACHE_MAXSIZE := 0;
     GHPROXY_USER_AGENT := "ghproxy-test" |}.

(** The first and the second request of [Example] on that cache; upstream
    is still up for the second. *)
Definition first_no_room (status : Z)
  : Reply * option TTLCache.t * list Event :=
  do_proxy no_room (cache_at_start no_room) (Example.clock 0)
           (Example.upstream (Example.response status "5" "hello"))
           Example.ranged Example.url false.

Definition second_no_room (status : Z)
  : Reply * option TTLCache.t * list Event :=
  do_proxy no_room (snd (fst (first_no_room status))) (Example.clock 59)
           (Example.upstream (Example.response status "5" "hello"))
           Example.plain Example.url false.

(** U+4E2D, a character above U+00FF, in UTF-8. *)
Definition zhong : string := String "228" (String "184" (String "173" "")).

(** A response whose ETag is that character. *)
Definition tagged (status : Z) (length body : string) : Httpx.Response :=
  {| Httpx.status_code := status;
     Httpx.headers := [("Content-Type", "text/plain");
                       ("Content-Length", length);
                       ("ETag", zhong)];
     Httpx.content := body |}.

(** The first and the second request of [Example] when upstream answers
    with that ETag, and a request whose response declares 2 MiB. *)
Definition first_tagged (status : Z)
  : Reply * option TTLCache.t * list Event :=
  do_proxy default_config (cache_at_start default_config) (Example.clock 0)
           (Example.upstream (tagged status "5" "hello"))
           Example.ranged Example.url false.

Definition second_tagged (status : Z) (request : Request)
  : Reply * option TTLCache.t * list Event :=
  do_proxy default_config (snd (fst (first_tagged status))) (Example.clock 59)
           Example.upstream_down request Example.url false.

Definition large_tagged : Reply * option TTLCache.t * list Event :=
  do_proxy default_config (cache_at_start default_config) (Example.clock 0)
           (Example.upstream (tagged 200 "2097152" "hello"))
           Example.plain Example.url false.

End Scenario.

(** The bytes a client receives from a sequence of chunks. *)
Definition join_chunks (chunks : list string) : string :=
  fold_right append "" chunks.

(** The body and the status a reply delivers. *)
Definition body_of_reply (reply : Reply) : option string :=
  match reply with
  | Response content _ _ => Some content
  | StreamingResponse chunks _ _ => Some (join_chunks chunks)
  | PlainTextResponse content => Some content
  | _ => None
  end.

Definition status_of_reply (reply : Reply) : option Z :=
  match reply with
  | Response _ status _ => Some status
  | StreamingResponse _ status _ => Some status
  | PlainTextResponse _ => Some 200
  | Documentation _ => Some 200
  | HTTPException status _ => Some status
  | Uncaught _ => None
  end.

(** [l] is [names] with some of its elements left out. *)
Fixpoint is_subsequence (l names : list string) : bool :=
  match l, names with
  | [], _ => true
  | _ :: _, [] => false
  | x :: l', n :: names' =>
      if String.eqb x n then is_subsequence l' names'
      else is_subsequence l names'
  end.

(** The same header lines with their names in lower case. *)
Definition lower_names (h : Httpx.Headers) : Httpx.Headers :=
  map (fun kv => (Str.lower (fst kv), snd kv)) h.

(** What a cache keeps true of its items: one item per key, and no more
    items than its size allows. *)
Definition cache_keys (c : TTLCache.t) : list string :=
  map fst (TTLCache.items c).

Definition cache_ok (cache : option TTLCache.t) : Prop :=
  match cache with
  | Some c =>
      NoDup (cache_keys c)
      /\ Z.of_nat (List.length (TTLCache.items c)) <= Z.max 0 (TTLCache.maxsize c)
  | None => True
  end.

(** What the cache holds for [key], if anything. *)
Definition cached (cache : option TTLCache.t) (key : string)
  : option (TTLCache.Value * Z) :=
  match cache with
  | Some c => TTLCache.find key (TTLCache.items c)
  | None => None
  end.

(* ================================================================== *)
(** * Facts about strings and the matcher *)

Module StrFacts.

Lemma take_app o t : Str.take (String.length o) (o ++ t) = o.
Proof. induction o as [|c o IH]; simpl; [destruct t|]; congruence. Qed.

Lemma app_empty s : s ++ "" = s.
Proof. induction s; simpl; congruence. Qed.

Lemma app_assoc a b c : (a ++ b) ++ c = a ++ (b ++ c).
Proof. induction a; simpl; congruence. Qed.

Lemma length_app a b :
  String.length (a ++ b) = (String.length a + String.length b)%nat.
Proof. induction a; simpl; congruence. Qed.

Lemma lower_cons_inv p l t :
  Str.lower p = String l t ->
  exists c p', p = String c p' /\ Str.lower_char c = l /\ Str.lower p' = t.
Proof.
  destruct p as [|c p']; simpl; [discriminate|]. intros [= <- <-]. eauto.
Qed.

Lemma lower_app_inv a b p :
  Str.lower p = a ++ b ->
  exists pa pb, p = pa ++ pb /\ Str.lower pa = a /\ Str.lower pb = b.
Proof.
  revert p; induction a as [|l a IH]; intros p H.
  - exists "", p. auto.
  - apply lower_cons_inv in H as (c & p' & -> & <- & H).
    apply IH in H as (pa & pb & -> & <- & <-).
    exists (String c pa), pb. auto.
Qed.

(** Only letters have a second spelling. *)
Lemma lower_char_not_letter c l :
  Str.lower_char c = l -> Str.is_lower l = false -> c = l.
Proof.
  intros <-. destruct c as [[] [] [] [] [] [] [] []]; intros H;
    try discriminate H; reflexivity.
Qed.

End StrFacts.

Module ReFacts.

Section Loops.
Context {R : Type} (p : ascii -> bool) (k : nat -> string -> option R).

(** The rest of the pattern cannot start where the loop could go on. *)
Hypothesis k_rejects : forall pos c s, p c = true -> k pos (String c s) = None.

Lemma star_loop_skip o t pos :
  Str.all p o = true ->
  star_loop p pos (o ++ t) k = star_loop p (String.length o + pos) t k.
Proof.
  revert pos; induction o as [|c o IH]; intros pos Hall; simpl in *.
  - reflexivity.
  - apply andb_prop in Hall as [Hc Ho].
    rewrite Hc, (IH _ Ho), k_rejects by assumption.
    rewrite Nat.add_succ_r. now destruct (star_loop _ _ _ _).
Qed.

Lemma star_loop_stop t pos : stops p t = true -> star_loop p pos t k = k pos t.
Proof. destruct t as [|c t]; simpl; [reflexivity|]. now destruct (p c). Qed.

Lemma star_loop_word o t pos :
  Str.all p o = true -> stops p t = true ->
  star_loop p pos (o ++ t) k = k (String.length o + pos)%nat t.
Proof. intros Ho Ht. rewrite star_loop_skip by assumption. now apply star_loop_stop. Qed.

Lemma plus_loop_word o t pos :
  o <> "" -> Str.all p o = true -> stops p t = true ->
  plus_loop p pos (o ++ t) k = k (String.length o + pos)%nat t.
Proof.
  destruct o as [|c o]; [congruence|]. intros _ Hall Ht. simpl in *.
  apply andb_prop in Hall as [Hc Ho]. rewrite Hc, (star_loop_skip _ _ _ Ho).
  rewrite Nat.add_succ_r. now apply star_loop_stop.
Qed.

End Loops.

(** Whether a loop finds a match depends on where the rest of the pattern
    can match, not on what it returns there. *)
Lemma star_loop_none {R R' : Type} p (k : nat -> string -> option R)
      (k' : nat -> string -> option R') :
  (forall pos pos' s, k pos s = None -> k' pos' s = None) ->
  forall s pos pos', star_loop p pos s k = None -> star_loop p pos' s k' = None.
Proof.
  intros Hk; induction s as [|c s IH]; intros pos pos' H; simpl in *.
  - eauto.
  - destruct (p c); [|eauto].
    destruct (star_loop p (S pos) s k) eqn:E; [discriminate|].
    rewrite (IH _ (S pos') E). eauto.
Qed.

Lemma run_group_plus ic cs r o t pos caps k :
  o <> "" -> Str.all (in_charset cs) o = true ->
  stops (in_charset cs) t = true ->
  (forall pos' c s caps', in_charset cs c = true ->
     run ic r pos' (String c s) caps' k = None) ->
  run ic (Seq (Group (Plus cs)) r) pos (o ++ t) caps k
  = run ic r (String.length o + pos) t (caps ++ [o])%list k.
Proof.
  intros Ho Hall Ht Hrej. cbn [run].
  rewrite plus_loop_word by (auto; intros; now apply Hrej).
  replace (String.length o + pos - pos)%nat with (String.length o) by lia.
  now rewrite StrFacts.take_app.
Qed.

Lemma run_group_star ic cs r o t pos caps k :
  Str.all (in_charset cs) o = true -> stops (in_charset cs) t = true ->
  (forall pos' c s caps', in_charset cs c = true ->
     run ic r pos' (String c s) caps' k = None) ->
  run ic (Seq (Group (Star cs)) r) pos (o ++ t) caps k
  = run ic r (String.length o + pos) t (caps ++ [o])%list k.
Proof.
  intros Hall Ht Hrej. cbn [run].
  rewrite star_loop_word by (auto; intros; now apply Hrej).
  replace (String.length o + pos - pos)%nat with (String.length o) by lia.
  now rewrite StrFacts.take_app.
Qed.

Lemma run_bol ic r s caps k :
  run ic (Seq Bol r) 0 s caps k = run ic r 0 s caps k.
Proof. reflexivity. Qed.

(** A literal of the pattern takes its own spelling. *)
Lemma run_lit ic c r s pos caps k :
  run ic (Seq (Lit c) r) pos (String c s) caps k = run ic r (1 + pos) s caps k.
Proof. cbn [run eat_lit]. rewrite !Ascii.eqb_refl. now destruct ic. Qed.

Lemma run_lits ic kw r s pos caps k :
  run ic (Seq (lits kw) r) pos (kw ++ s) caps k
  = run ic r (String.length kw + pos) s caps k.
Proof.
  revert pos; induction kw as [|c kw IH]; intros pos; [reflexivity|].
  cbn [run lits] in *. cbn [append eat_lit]. rewrite !Ascii.eqb_refl.
  destruct ic; rewrite IH; f_equal; simpl; lia.
Qed.

Lemma eat_slash_rejects c s :
  in_charset (NotChar "/") c = true -> eat_lit true "/" (String c s) = None.
Proof.
  destruct c as [[] [] [] [] [] [] [] []]; intros H;
    try discriminate H; reflexivity.
Qed.

Lemma slash_rejects r pos c s caps k :
  in_charset (NotChar "/") c = true ->
  run true (Seq (Lit "/") r) pos (String c s) caps k = None.
Proof. intros H. cbn [run]. now rewrite eat_slash_rejects. Qed.

Lemma slash_lits_rejects kw r pos c s caps k :
  in_charset (NotChar "/") c = true ->
  run true (Seq (lits (String "/" kw)) r) pos (String c s) caps k = None.
Proof. intros H. cbn [run lits]. now rewrite eat_slash_rejects. Qed.

Lemma eol_rejects ic r pos c s caps k :
  in_charset AnyButNewline c = true ->
  run ic (Seq Eol r) pos (String c s) caps k = None.
Proof.
  intros H. cbn [run at_eol]. destruct s; [|reflexivity].
  simpl in H. now destruct (Ascii.eqb c LF).
Qed.

(** Under [re.I] a literal takes any spelling of its letters. *)
Lemma run_lits_fold t p pos s caps k :
  Str.lower p = Str.lower t ->
  run true (lits t) pos (p ++ s) caps k = k (String.length p + pos)%nat s caps.
Proof.
  revert p pos; induction t as [|l t IH]; intros p pos H.
  - destruct p; [reflexivity|discriminate H].
  - apply StrFacts.lower_cons_inv in H as (c & p' & -> & Hc & Hp).
    cbn [run lits append eat_lit]. rewrite Hc, Ascii.eqb_refl, (IH _ _ Hp).
    f_equal. simpl. lia.
Qed.

Lemma run_seq_lits t p r pos s caps k :
  Str.lower p = Str.lower t ->
  run true (Seq (lits t) r) pos (p ++ s) caps k
  = run true r (String.length p + pos) s caps k.
Proof. intros H. cbn [run]. now rewrite run_lits_fold. Qed.

Lemma run_lits_reject l t c s pos caps k :
  Str.lower_char c <> Str.lower_char l ->
  fold_extras (Str.lower_char l) = [] ->
  run true (lits (String l t)) pos (String c s) caps k = None.
Proof.
  intros Hc He. cbn [run lits eat_lit].
  destruct (Ascii.eqb_spec (Str.lower_char c) (Str.lower_char l));
    [contradiction|].
  now rewrite He.
Qed.

(** The optional parts of the head: taken when they are there, and then
    nothing is lost by not trying without them. *)
Lemma opt_s_taken c r pos s caps k :
  Str.lower_char c = "s"%char ->
  run true (Seq (Opt (Lit "s")) (Seq (lits "://") r)) pos (String c s) caps k
  = run true (Seq (lits "://") r) (1 + pos) s caps k.
Proof.
  intros H. cbn [run eat_lit]. rewrite H. cbn [Ascii.eqb Bool.eqb].
  change (Str.lower_char "s") with "s"%char. cbn [Ascii.eqb Bool.eqb].
  rewrite (run_lits_reject ":" "//" c) by (rewrite ?H; easy).
  now destruct (run true (lits "://") _ _ _ _).
Qed.

Lemma opt_s_skipped r pos s caps k :
  run true (Seq (Opt (Lit "s")) r) pos (String ":" s) caps k
  = run true r pos (String ":" s) caps k.
Proof. reflexivity. Qed.

Lemma opt_www_taken p r pos s caps k :
  Str.lower p = "www." ->
  run true (Seq (Opt (lits "www.")) (Seq (lits "github.com/") r)) pos
      (p ++ s) caps k
  = run true (Seq (lits "github.com/") r) (String.length p + pos) s caps k.
Proof.
  intros H. cbn [run]. rewrite run_lits_fold by assumption.
  apply StrFacts.lower_cons_inv in H as (c & p' & -> & Hc & _).
  cbn [append].
  rewrite (run_lits_reject "g" "ithub.com/" c) by (rewrite ?Hc; easy).
  now destruct (run true (lits "github.com/") _ _ _ _).
Qed.

Lemma opt_www_skipped c r pos s caps k :
  Str.lower_char c <> "w"%char ->
  run true (Seq (Opt (lits "www.")) r) pos (String c s) caps k
  = run true r pos (String c s) caps k.
Proof.
  intros H. cbn [run]. now rewrite (run_lits_reject "w" "ww." c).
Qed.

Lemma run_scheme p r s caps k :
  Str.lower p = "http://" \/ Str.lower p = "https://" ->
  run true
      (Seq Bol (Seq (lits "http") (Seq (Opt (Lit "s")) (Seq (lits "://") r))))
      0 (p ++ s) caps k
  = run true r (String.length p) s caps k.
Proof.
  intros [H|H]; rewrite run_bol.
  - change "http://" with ("http" ++ "://") in H.
    apply StrFacts.lower_app_inv in H as (p1 & p2 & -> & H1 & H2).
    rewrite StrFacts.app_assoc, (run_seq_lits "http") by assumption.
    destruct (StrFacts.lower_cons_inv _ _ _ H2) as (c & p' & -> & Hc & _).
    apply StrFacts.lower_char_not_letter in Hc; [subst c|reflexivity].
    cbn [append]. rewrite opt_s_skipped.
    change (String ":" (p' ++ s)) with (String ":" p' ++ s).
    rewrite (run_seq_lits "://") by assumption.
    f_equal. rewrite StrFacts.length_app. lia.
  - change "https://" with ("http" ++ "s" ++ "://") in H.
    apply StrFacts.lower_app_inv in H as (p1 & q & -> & H1 & H).
    apply StrFacts.lower_app_inv in H as (p2 & p3 & -> & H2 & H3).
    apply StrFacts.lower_cons_inv in H2 as (c & e & -> & Hc & He).
    destruct e; [|discriminate He].
    rewrite !StrFacts.app_assoc, (run_seq_lits "http") by assumption.
    cbn [append]. rewrite opt_s_taken, (run_seq_lits "://") by assumption.
    f_equal. rewrite !StrFacts.length_app. simpl. lia.
Qed.

Lemma run_host p r s pos caps k :
  Str.lower p = "github.com/" \/ Str.lower p = "www.github.com/" ->
  run true (Seq (Opt (lits "www.")) (Seq (lits "github.com/") r)) pos
      (p ++ s) caps k
  = run true r (String.length p + pos) s caps k.
Proof.
  intros [H|H].
  - destruct (StrFacts.lower_cons_inv _ _ _ H) as (g & p' & -> & Hg & _).
    cbn [append]. rewrite opt_www_skipped by (rewrite Hg; easy).
    change (String g (p' ++ s)) with (String g p' ++ s).
    now rewrite (run_seq_lits "github.com/").
  - change "www.github.com/" with ("www." ++ "github.com/") in H.
    apply StrFacts.lower_app_inv in H as (p1 & p2 & -> & H1 & H2).
    rewrite StrFacts.app_assoc, opt_www_taken, (run_seq_lits "github.com/")
      by assumption.
    f_equal. rewrite StrFacts.length_app. lia.
Qed.

(** A host that starts with neither w nor g is not GitHub's. *)
Lemma run_host_other c r s pos caps k :
  Str.lower_char c <> "w"%char -> Str.lower_char c <> "g"%char ->
  run true (Seq (Opt (lits "www.")) (Seq (lits "github.com/") r)) pos
      (String c s) caps k
  = None.
Proof.
  intros Hw Hg. rewrite opt_www_skipped by assumption. cbn [run].
  now rewrite (run_lits_reject "g" "ithub.com/" c).
Qed.

(** The head of a GitHub pattern takes scheme and host in any case. *)
Lemma run_head pre r s caps k :
  In (Str.lower pre) github_prefixes ->
  run true (gh_head r) 0 (pre ++ s) caps k
  = run true r (String.length pre) s caps k.
Proof.
  intros H.
  assert (E : exists p q,
             pre = p ++ q
             /\ (Str.lower p = "http://" \/ Str.lower p = "https://")
             /\ (Str.lower q = "github.com/"
                 \/ Str.lower q = "www.github.com/")).
  { destruct H as [H|[H|[H|[H|[]]]]]; symmetry in H.
    - change "https://github.com/" with ("https://" ++ "github.com/") in H.
      apply StrFacts.lower_app_inv in H as (p & q & -> & Hp & Hq).
      exists p, q; intuition.
    - change "http://github.com/" with ("http://" ++ "github.com/") in H.
      apply StrFacts.lower_app_inv in H as (p & q & -> & Hp & Hq).
      exists p, q; intuition.
    - change "https://www.github.com/"
        with ("https://" ++ "www.github.com/") in H.
      apply StrFacts.lower_app_inv in H as (p & q & -> & Hp & Hq).
      exists p, q; intuition.
    - change "http://www.github.com/"
        with ("http://" ++ "www.github.com/") in H.
      apply StrFacts.lower_app_inv in H as (p & q & -> & Hp & Hq).
      exists p, q; intuition. }
  destruct E as (p & q & -> & Hp & Hq).
  unfold gh_head. rewrite StrFacts.app_assoc, run_scheme, run_host by assumption.
  f_equal. rewrite StrFacts.length_app. lia.
Qed.

(** The head fails on a host that starts with neither w nor g. *)
Lemma run_head_other p c r s caps k :
  Str.lower p = "http://" \/ Str.lower p = "https://" ->
  Str.lower_char c <> "w"%char -> Str.lower_char c <> "g"%char ->
  run true (gh_head r) 0 (p ++ String c s) caps k = None.
Proof.
  intros Hp Hw Hg. unfold gh_head. rewrite run_scheme by assumption.
  now apply run_host_other.
Qed.

(** The tail of a GitHub pattern on owner/repo/keyword/rest. *)
Lemma run_tail kw pos owner repo rest caps :
  owner <> "" -> no_char "/" owner = true ->
  repo <> "" -> no_char "/" repo = true ->
  rest <> "" -> no_char LF rest = true ->
  run true (gh_tail (String "/" kw)) pos
      (owner ++ "/" ++ repo ++ String "/" kw ++ rest) caps
      (fun _ _ groups => Some groups)
  = Some (caps ++ [owner; repo; rest])%list.
Proof.
  intros Ho Hos Hr Hrs Ht Hts. unfold gh_tail.
  rewrite run_group_plus; auto using slash_rejects.
  change ("/" ++ repo ++ String "/" kw ++ rest)
    with (String "/" (repo ++ String "/" kw ++ rest)).
  rewrite run_lit.
  rewrite run_group_plus; auto using slash_lits_rejects.
  rewrite run_lits.
  rewrite <- (StrFacts.app_empty rest) at 1.
  rewrite run_group_plus; auto using eol_rejects.
  cbn. now rewrite <- !app_assoc.
Qed.

(** The keyword has to be the one of the pattern. *)
Lemma run_tail_other pos owner repo rest caps k :
  owner <> "" -> no_char "/" owner = true ->
  repo <> "" -> no_char "/" repo = true ->
  run true (gh_tail "/blob/") pos
      (owner ++ "/" ++ repo ++ "/raw/" ++ rest) caps k = None.
Proof.
  intros Ho Hos Hr Hrs. unfold gh_tail.
  rewrite run_group_plus; auto using slash_rejects.
  change ("/" ++ repo ++ "/raw/" ++ rest)
    with (String "/" (repo ++ "/raw/" ++ rest)).
  rewrite run_lit.
  rewrite run_group_plus; auto.
  intros; now apply (slash_lits_rejects "blob/").
Qed.

End ReFacts.

(* ================================================================== *)
(** * The GitHub link rewriter *)

Lemma gh_blob_regex_shape : gh_blob_regex = gh_head (gh_tail "/blob/").
Proof. reflexivity. Qed.

Lemma gh_tree_regex_shape : gh_tree_regex = gh_head (gh_tail "/raw/").
Proof. reflexivity. Qed.

Lemma blob_matches pre owner repo rest :
  In (Str.lower pre) github_prefixes ->
  owner <> "" -> no_char "/" owner = true ->
  repo <> "" -> no_char "/" repo = true ->
  rest <> "" -> no_char LF rest = true ->
  re_match true gh_blob_regex (pre ++ owner ++ "/" ++ repo ++ "/blob/" ++ rest)
  = Some [owner; repo; rest].
Proof.
  intros Hpre **. unfold re_match. rewrite gh_blob_regex_shape.
  rewrite ReFacts.run_head by assumption.
  now apply (ReFacts.run_tail "blob/").
Qed.

Lemma tree_matches pre owner repo rest :
  In (Str.lower pre) github_prefixes ->
  owner <> "" -> no_char "/" owner = true ->
  repo <> "" -> no_char "/" repo = true ->
  rest <> "" -> no_char LF rest = true ->
  re_match true gh_tree_regex (pre ++ owner ++ "/" ++ repo ++ "/raw/" ++ rest)
  = Some [owner; repo; rest].
Proof.
  intros Hpre **. unfold re_match. rewrite gh_tree_regex_shape.
  rewrite ReFacts.run_head by assumption.
  now apply (ReFacts.run_tail "raw/").
Qed.

Lemma blob_skips_raw_form pre owner repo rest :
  In (Str.lower pre) github_prefixes ->
  owner <> "" -> no_char "/" owner = true ->
  repo <> "" -> no_char "/" repo = true ->
  re_match true gh_blob_regex (pre ++ owner ++ "/" ++ repo ++ "/raw/" ++ rest)
  = None.
Proof.
  intros Hpre **. unfold re_match. rewrite gh_blob_regex_shape.
  rewrite ReFacts.run_head by assumption.
  now apply ReFacts.run_tail_other.
Qed.

(** Neither pattern matches a URL of the raw-content host, however scheme
    and host are spelled. *)
Lemma raw_host_unmatched pre s :
  Str.lower pre = "http://raw.githubusercontent.com"
  \/ Str.lower pre = "https://raw.githubusercontent.com" ->
  re_match true gh_blob_regex (pre ++ s) = None
  /\ re_match true gh_tree_regex (pre ++ s) = None.
Proof.
  intros H.
  assert (E : exists p c q,
             pre = p ++ String c q
             /\ (Str.lower p = "http://" \/ Str.lower p = "https://")
             /\ Str.lower_char c = "r"%char).
  { destruct H as [H|H].
    - change "http://raw.githubusercontent.com"
        with ("http://" ++ "raw.githubusercontent.com") in H.
      apply StrFacts.lower_app_inv in H as (p & q & -> & Hp & Hq).
      apply StrFacts.lower_cons_inv in Hq as (c & q' & -> & Hc & _).
      exists p, c, q'; intuition.
    - change "https://raw.githubusercontent.com"
        with ("https://" ++ "raw.githubusercontent.com") in H.
      apply StrFacts.lower_app_inv in H as (p & q & -> & Hp & Hq).
      apply StrFacts.lower_cons_inv in Hq as (c & q' & -> & Hc & _).
      exists p, c, q'; intuition. }
  destruct E as (p & c & q & -> & Hp & Hc).
  unfold re_match. rewrite gh_blob_regex_shape, gh_tree_regex_shape.
  rewrite StrFacts.app_assoc. cbn [append].
  split; apply ReFacts.run_head_other; try assumption; rewrite Hc; easy.
Qed.

Lemma github_to_raw_raw_host pre s :
  Str.lower pre = "http://raw.githubusercontent.com"
  \/ Str.lower pre = "https://raw.githubusercontent.com" ->
  github_to_raw (pre ++ s) = pre ++ s.
Proof.
  intros H. unfold github_to_raw.
  now destruct (raw_host_unmatched pre s H) as [-> ->].
Qed.

Lemma github_to_raw_raw_url groups :
  github_to_raw (raw_url groups) = raw_url groups.
Proof.
  apply (github_to_raw_raw_host "https://raw.githubusercontent.com"
                                (String "/" _)).
  now right.
Qed.

(** The rest of the path is one line: [.] stops at a line feed, and [$]
    accepts one only as the last character, which the group leaves out. *)
Lemma github_to_raw_line_feed :
  github_to_raw ("https://github.com/o/r/blob/a" ++ String LF "b")
  = "https://github.com/o/r/blob/a" ++ String LF "b"
  /\ github_to_raw ("https://github.com/o/r/blob/a" ++ String LF "")
     = "https://raw.githubusercontent.com/o/r/a".
Proof. split; reflexivity. Qed.

(** C6. For owner and repository names (not empty, without a slash) and a
    rest (not empty, without a line feed), [github_to_raw] turns
    [https://github.com/OWNER/REPO/blob/REST], and its [http] and [www.]
    spellings, with scheme and host in any case, into
    [https://raw.githubusercontent.com/OWNER/REPO/REST], and does the same
    for the [/raw/] form; a URL that the blob pattern matches is rewritten
    by the blob pattern, whatever the other pattern would say, and a URL
    that neither pattern matches comes back unchanged. *)
Theorem github_to_raw_rewrites pre owner repo rest :
  In (Str.lower pre) github_prefixes ->
  owner <> "" -> no_char "/" owner = true ->
  repo <> "" -> no_char "/" repo = true ->
  rest <> "" -> no_char LF rest = true ->
  github_to_raw (pre ++ owner ++ "/" ++ repo ++ "/blob/" ++ rest)
    = "https://raw.githubusercontent.com/" ++ owner ++ "/" ++ repo ++ "/" ++ rest
  /\ github_to_raw (pre ++ owner ++ "/" ++ repo ++ "/raw/" ++ rest)
    = "https://raw.githubusercontent.com/" ++ owner ++ "/" ++ repo ++ "/" ++ rest
  /\ (forall url groups,
        re_match true gh_blob_regex url = Some groups ->
        github_to_raw url = raw_url groups)
  /\ (forall url groups,
        re_match true gh_blob_regex url = None ->
        re_match true gh_tree_regex url = Some groups ->
        github_to_raw url = raw_url groups)
  /\ (forall url,
        re_match true gh_blob_regex url = None ->
        re_match true gh_tree_regex url = None ->
        github_to_raw url = url).
Proof.
  intros Hpre Ho Hos Hr Hrs Ht Hts. unfold github_to_raw. repeat split.
  - now rewrite blob_matches.
  - rewrite blob_skips_raw_form by assumption. now rewrite tree_matches.
  - now intros url groups ->.
  - now intros url groups -> ->.
  - now intros url -> ->.
Qed.

Lemma github_to_raw_rewrites_witness :
  github_to_raw "https://github.com/python/cpython/blob/main/README.rst"
    = "https://raw.githubusercontent.com/python/cpython/main/README.rst"
  /\ github_to_raw "HTTP://WWW.GitHub.com/python/cpython/raw/main/README.rst"
    = "https://raw.githubusercontent.com/python/cpython/main/README.rst".
Proof.
  split.
  - refine (proj1 (github_to_raw_rewrites
                     "https://github.com/" "python" "cpython" "main/README.rst"
                     _ _ _ _ _ _ _));
      try discriminate; try reflexivity.
    simpl; auto.
  - refine (proj1 (proj2 (github_to_raw_rewrites
                     "HTTP://WWW.GitHub.com/" "python" "cpython"
                     "main/README.rst" _ _ _ _ _ _ _)));
      try discriminate; try reflexivity.
    simpl; auto.
Defined.

(** C8. [github_to_raw] is idempotent on every URL, and a URL of the host
    raw.githubusercontent.com (scheme and host in any case) passes through
    unchanged. *)
Theorem github_to_raw_idempotent :
  (forall url, github_to_raw (github_to_raw url) = github_to_raw url)
  /\ (forall pre rest,
        Str.lower pre = "http://raw.githubusercontent.com"
        \/ Str.lower pre = "https://raw.githubusercontent.com" ->
        github_to_raw (pre ++ rest) = pre ++ rest).
Proof.
  split.
  - intros url.
    assert (E : (exists g, github_to_raw url = raw_url g)
                \/ github_to_raw url = url).
    { unfold github_to_raw.
      destruct (re_match true gh_blob_regex url); [eauto|].
      destruct (re_match true gh_tree_regex url); eauto. }
    destruct E as [[g E]|E]; rewrite E; [apply github_to_raw_raw_url|exact E].
  - intros pre rest. apply github_to_raw_raw_host.
Qed.

(* ================================================================== *)
(** * The header filter *)

Lemma dict_set_fresh d k v :
  ~ In k (map fst d) -> dict_set d k v = (d ++ [(k, v)])%list.
Proof.
  induction d as [|[k' v'] d IH]; simpl; intros H; [reflexivity|].
  destruct (String.eqb_spec k' k) as [->|_]; [exfalso; apply H; now left|].
  rewrite IH; [reflexivity|]. intros Hin. apply H. now right.
Qed.

Lemma picked_of_keys h k : incl (map fst (picked_of h k)) [k].
Proof.
  unfold picked_of. destruct (Httpx.get h k) as [v|]; [destruct (Str.truthy v)|];
    intros x Hx; simpl in *; tauto.
Qed.

Lemma pick_loop_flat h names :
  NoDup names ->
  forall hdrs, (forall k, In k names -> ~ In k (map fst hdrs)) ->
  pick_loop h names hdrs = (hdrs ++ flat_map (picked_of h) names)%list.
Proof.
  induction 1 as [|k names Hk Hnd IH]; intros hdrs Hfresh; simpl.
  - now rewrite app_nil_r.
  - assert (E : match Httpx.get h k with
                | Some v => if Str.truthy v then dict_set hdrs k v else hdrs
                | None => hdrs
                end = (hdrs ++ picked_of h k)%list).
    { unfold picked_of. destruct (Httpx.get h k) as [v|];
        [destruct (Str.truthy v)|]; rewrite ?app_nil_r; auto.
      apply dict_set_fresh, Hfresh; now left. }
    rewrite E, IH, <- app_assoc; [reflexivity|].
    intros k' Hk'. rewrite map_app, in_app_iff. intros [Hin|Hin].
    + apply (Hfresh k'); [now right|assumption].
    + apply picked_of_keys in Hin. destruct Hin as [->|[]]. contradiction.
Qed.


Lemma pick_response_headers_flat h :
  pick_response_headers h = flat_map (picked_of h) picked_names.
Proof.
  unfold pick_response_headers. rewrite pick_loop_flat; [reflexivity| |auto].
  unfold picked_names.
  repeat (constructor; [simpl; intuition discriminate|]). constructor.
Qed.




(* ================================================================== *)
(** * The response cache *)

Module CacheFacts.
Import TTLCache.

Lemma find_app key l1 l2 :
  find key (l1 ++ l2)
  = match find key l1 with Some x => Some x | None => find key l2 end.
Proof.
  induction l1 as [|[k x] l1 IH]; simpl; [reflexivity|].
  now destruct (String.eqb k key).
Qed.

Lemma find_remove key l : find key (remove key l) = None.
Proof.
  induction l as [|[k x] l IH]; simpl; [reflexivity|].
  destruct (String.eqb k key) eqn:E; simpl; [assumption|]. now rewrite E.
Qed.

Lemma find_reinserted key l x :
  find key (remove key l ++ [(key, x)]) = Some x.
Proof. rewrite find_app, find_remove. simpl. now rewrite String.eqb_refl. Qed.

(** A cache that can hold an item takes the item, which then lives for
    [ttl] ticks. *)
Lemma setitem_stores c key v now :
  1 <= maxsize c ->
  exists c',
    setitem c key v now = (None, c')
    /\ maxsize c' = maxsize c /\ ttl c' = ttl c
    /\ find key (items c') = Some (v, now + ttl c).
Proof.
  intros H. unfold setitem.
  destruct (Z.ltb_spec (maxsize c) 1) as [|_]; [lia|].
  eexists; split; [reflexivity|]. simpl. now rewrite find_reinserted.
Qed.

Lemma contains_live c key v expires now :
  find key (items c) = Some (v, expires) ->
  contains c key now = (now <? expires).
Proof. unfold contains. now intros ->. Qed.

(** Reading a live item returns it and keeps it in the cache. *)
Lemma getitem_live c key v expires now :
  find key (items c) = Some (v, expires) -> now < expires ->
  exists c',
    getitem c key now = (inl v, c')
    /\ maxsize c' = maxsize c /\ ttl c' = ttl c
    /\ find key (items c') = Some (v, expires).
Proof.
  intros E H. unfold getitem. rewrite E.
  destruct (Z.ltb_spec now expires) as [_|]; [|lia].
  eexists; split; [reflexivity|]. simpl. now rewrite find_reinserted.
Qed.

(** A cache of size below one takes nothing: the store raises. *)
Lemma setitem_without_capacity c key v now :
  maxsize c < 1 ->
  exists c',
    setitem c key v now = (Some (ValueError "value too large"), c')
    /\ items c' = expire now (items c).
Proof.
  intros H. unfold setitem. destruct (Z.ltb_spec (maxsize c) 1); [|lia].
  eexists; split; reflexivity.
Qed.

(** Neither reading nor writing changes the bounds of the cache. *)
Lemma getitem_bounds c key now r c' :
  getitem c key now = (r, c') -> maxsize c' = maxsize c /\ ttl c' = ttl c.
Proof.
  unfold getitem. destruct (find key (items c)) as [[v expires]|];
    [destruct (now <? expires)|]; intros [= <- <-]; auto.
Qed.

Lemma setitem_bounds c key v now r c' :
  setitem c key v now = (r, c') -> maxsize c' = maxsize c /\ ttl c' = ttl c.
Proof.
  unfold setitem. destruct (maxsize c <? 1); intros [= <- <-]; auto.
Qed.

End CacheFacts.

(* ================================================================== *)
(** * Streaming *)

Module ChunkFacts.

Lemma take_drop n s : Str.take n s ++ Str.drop n s = s.
Proof.
  revert s; induction n as [|n IH]; intros [|c s]; simpl; try reflexivity.
  now rewrite IH.
Qed.

Lemma length_take n s :
  String.length (Str.take n s) = Nat.min n (String.length s).
Proof.
  revert s; induction n as [|n IH]; intros [|c s]; simpl; try reflexivity.
  now rewrite IH.
Qed.

Lemma length_drop n s :
  String.length (Str.drop n s) = (String.length s - n)%nat.
Proof.
  revert s; induction n as [|n IH]; intros [|c s]; simpl; try reflexivity.
  apply IH.
Qed.

Section Chunks.
Variable n : nat.
Hypothesis n_positive : (1 <= n)%nat.

Lemma chunks_join fuel content :
  (String.length content <= fuel)%nat ->
  join_chunks (Httpx.chunks_from fuel n content) = content.
Proof.
  revert content; induction fuel as [|fuel IH]; intros content Hlen.
  - destruct content; [reflexivity|simpl in Hlen; lia].
  - destruct content as [|c content]; [reflexivity|].
    cbn [Httpx.chunks_from join_chunks fold_right].
    replace (Nat.max n 1) with n by lia.
    fold (join_chunks (Httpx.chunks_from fuel n (Str.drop n (String c content)))).
    rewrite IH, take_drop; [reflexivity|].
    rewrite length_drop. cbn [String.length] in *. lia.
Qed.

Lemma chunks_sizes fuel content :
  Forall (fun chunk => (1 <= String.length chunk <= n)%nat)
         (Httpx.chunks_from fuel n content).
Proof.
  revert content; induction fuel as [|fuel IH]; intros content;
    [constructor|].
  destruct content as [|c content]; [constructor|].
  cbn [Httpx.chunks_from]. constructor; [|apply IH].
  rewrite length_take. cbn [String.length]. lia.
Qed.

Lemma chunks_full fuel content :
  (String.length content <= fuel)%nat ->
  Forall (fun chunk => String.length chunk = n)
         (removelast (Httpx.chunks_from fuel n content)).
Proof.
  revert content; induction fuel as [|fuel IH]; intros content Hlen;
    [constructor|].
  destruct content as [|c content]; [constructor|].
  cbn [Httpx.chunks_from]. replace (Nat.max n 1) with n by lia.
  assert (Hrest : (String.length (Str.drop n (String c content)) <= fuel)%nat)
    by (rewrite length_drop; cbn [String.length] in *; lia).
  specialize (IH _ Hrest).
  destruct (Httpx.chunks_from fuel n (Str.drop n (String c content)))
    as [|chunk rest] eqn:E; [constructor|].
  cbn [removelast]. constructor; [|exact IH].
  rewrite length_take.
  destruct fuel as [|fuel']; [discriminate E|].
  destruct (Str.drop n (String c content)) as [|d s'] eqn:Ed; [discriminate E|].
  assert (H := length_drop n (String c content)). rewrite Ed in H.
  cbn [String.length] in *. lia.
Qed.

End Chunks.

Lemma stream_response_joins resp :
  join_chunks (stream_response resp) = Httpx.content resp.
Proof.
  unfold stream_response, Httpx.aiter_bytes.
  apply chunks_join; [unfold MAX_STREAM_CHUNK|]; lia.
Qed.

Lemma stream_response_sizes resp :
  Forall (fun chunk => (1 <= String.length chunk <= MAX_STREAM_CHUNK)%nat)
         (stream_response resp).
Proof.
  unfold stream_response, Httpx.aiter_bytes.
  apply chunks_sizes. unfold MAX_STREAM_CHUNK. lia.
Qed.

End ChunkFacts.

(** X1. The chunks of [stream_response], put together again, are the body
    of the response; every chunk holds at least one byte and at most
    [MAX_STREAM_CHUNK] (64 KiB), and every chunk but the last holds exactly
    that many.  An empty body gives no chunk at all. *)
Theorem stream_response_chunks resp :
  join_chunks (stream_response resp) = Httpx.content resp
  /\ Forall (fun chunk => (1 <= String.length chunk <= MAX_STREAM_CHUNK)%nat)
            (stream_response resp)
  /\ Forall (fun chunk => String.length chunk = MAX_STREAM_CHUNK)
            (removelast (stream_response resp))
  /\ (Httpx.content resp = "" -> stream_response resp = []).
Proof.
  unfold stream_response, Httpx.aiter_bytes.
  assert (H1 : (1 <= MAX_STREAM_CHUNK)%nat) by (unfold MAX_STREAM_CHUNK; lia).
  split; [now apply ChunkFacts.chunks_join|].
  split; [now apply ChunkFacts.chunks_sizes|].
  split; [now apply ChunkFacts.chunks_full|].
  now intros ->.
Qed.

(* ================================================================== *)
(** * The orchestrator *)

(** Case analysis on the scrutinees of a run [H : ... = (reply, cache, events)]. *)
Ltac split_run H :=
  repeat match type of H with
         | context [match ?x with _ => _ end] => destruct x eqn:?
         end.

(** Building the headers of a reply either goes through or raises the
    encoding error. *)
Lemma init_headers_cases headers :
  init_headers headers = None
  \/ init_headers headers = Some UnicodeEncodeError.
Proof. unfold init_headers. destruct (forallb _ _); auto. Qed.

(** Case analysis on the replies built in a run [H]. *)
Ltac split_init H :=
  unfold Response_init, StreamingResponse_init in H;
  repeat match type of H with
         | context [init_headers ?h] =>
             let E := fresh "Hinit" in
             destruct (init_headers_cases h) as [E|E]; rewrite E in H
         end.

Lemma Response_init_built content status headers :
  init_headers headers = None ->
  Response_init content status headers = Response content status headers.
Proof. intros H. unfold Response_init. now rewrite H. Qed.

Lemma StreamingResponse_init_built chunks status headers :
  init_headers headers = None ->
  StreamingResponse_init chunks status headers
  = StreamingResponse chunks status headers.
Proof. intros H. unfold StreamingResponse_init. now rewrite H. Qed.

Lemma Response_init_raised content status headers :
  init_headers headers = Some UnicodeEncodeError ->
  Response_init content status headers = Uncaught UnicodeEncodeError.
Proof. intros H. unfold Response_init. now rewrite H. Qed.

Lemma StreamingResponse_init_raised chunks status headers :
  init_headers headers = Some UnicodeEncodeError ->
  StreamingResponse_init chunks status headers = Uncaught UnicodeEncodeError.
Proof. intros H. unfold StreamingResponse_init. now rewrite H. Qed.

Section ProxyFacts.

Context {lib : PyLib}.
Variable cfg : Config.

Implicit Types (cache : option TTLCache.t) (clk : Clock)
         (client_get : string -> dict -> Httpx.GetResult)
         (request : Request) (url : string) (convert_github : bool).

(** What [do_proxy] does once the URL is accepted and the cache has
    nothing for it. *)
Lemma do_proxy_miss cache clk client_get request url convert_github :
  allowed_scheme (normalize_url_param url) = Some true ->
  cache_hit cache (cache_key_of (target_url url convert_github))
            (at_contains clk) = false ->
  do_proxy cfg cache clk client_get request url convert_github
  = let u := target_url url convert_github in
    let out_headers := out_headers_of cfg request in
    match client_get u out_headers with
    | Httpx.RequestError e =>
        (HTTPException 502 ("Upstream request failed: " ++ e), cache,
         [Fetch u out_headers])
    | Httpx.Raised e => (Uncaught e, cache, [Fetch u out_headers])
    | Httpx.Returned resp =>
        let picked := pick_response_headers (Httpx.headers resp) in
        let status := Httpx.status_code resp in
        match cache, content_length_of cache resp with
        | Some c, Some n =>
            if n <=? 1048576 then
              match TTLCache.setitem c (cache_key_of u)
                      (Httpx.content resp, picked, status) (at_setitem clk) with
              | (None, c') =>
                  (Response_init (Httpx.content resp) status picked, Some c',
                   [Fetch u out_headers;
                    Store (cache_key_of u) (Httpx.content resp, picked, status)])
              | (Some e, c') => (Uncaught e, Some c', [Fetch u out_headers])
              end
            else
              (StreamingResponse_init (stream_response resp) status picked,
               cache, [Fetch u out_headers])
        | _, _ =>
            (StreamingResponse_init (stream_response resp) status picked,
             cache, [Fetch u out_headers])
        end
    end.
Proof.
  intros Ha Hm. unfold do_proxy. cbv zeta. rewrite Ha.
  change (if convert_github then github_to_raw (normalize_url_param url)
          else normalize_url_param url) with (target_url url convert_github).
  destruct cache as [c|]; [now rewrite Hm|reflexivity].
Qed.

(** What [do_proxy] does when the cache has the URL. *)
Lemma do_proxy_hit c clk client_get request url convert_github :
  allowed_scheme (normalize_url_param url) = Some true ->
  TTLCache.contains c (cache_key_of (target_url url convert_github))
                    (at_contains clk) = true ->
  do_proxy cfg (Some c) clk client_get request url convert_github
  = match TTLCache.getitem c (cache_key_of (target_url url convert_github))
            (at_getitem clk) with
    | (inl (content, headers, status), c') =>
        (Response_init content status headers, Some c', [])
    | (inr e, c') => (Uncaught e, Some c', [])
    end.
Proof.
  intros Ha Hh. unfold do_proxy. cbv zeta. rewrite Ha.
  change (if convert_github then github_to_raw (normalize_url_param url)
          else normalize_url_param url) with (target_url url convert_github).
  unfold cache_hit. now rewrite Hh.
Qed.

(** A fetch is made only for an accepted URL that the cache does not have,
    and it is the only fetch of the call. *)
Lemma fetch_inv cache clk client_get request url convert_github
      reply cache' events u h :
  do_proxy cfg cache clk client_get request url convert_github
  = (reply, cache', events) ->
  In (Fetch u h) events ->
  allowed_scheme (normalize_url_param url) = Some true
  /\ cache_hit cache (cache_key_of (target_url url convert_github))
               (at_contains clk) = false
  /\ u = target_url url convert_github
  /\ h = out_headers_of cfg request.
Proof.
  intros Hrun Hin.
  destruct (allowed_scheme (normalize_url_param url)) as [[|]|] eqn:Ha;
    [|unfold do_proxy in Hrun; rewrite Ha in Hrun; injection Hrun as <- <- <-;
      destruct Hin..].
  destruct (cache_hit cache (cache_key_of (target_url url convert_github))
                      (at_contains clk)) eqn:Hh.
  - destruct cache as [c|]; [|discriminate Hh]. simpl in Hh.
    rewrite (do_proxy_hit _ _ _ _ _ _ Ha Hh) in Hrun.
    destruct (TTLCache.getitem _ _ _) as [[[[? ?] ?]|e] c'];
      injection Hrun as <- <- <-; destruct Hin.
  - rewrite (do_proxy_miss _ _ _ _ _ _ Ha Hh) in Hrun. cbv zeta in Hrun.
    split_run Hrun; injection Hrun as <- <- <-; simpl in Hin;
      repeat (destruct Hin as [Hin|Hin]; try discriminate Hin);
      try contradiction; injection Hin as <- <-; auto.
Qed.

(** The cache object is the one the configuration asks for, from the start
    of the process and after every call. *)
Lemma configured_at_start : configured cfg (cache_at_start cfg).
Proof.
  unfold cache_at_start. destruct (Z.ltb_spec 0 (CACHE_TTL cfg)); simpl; auto.
Qed.

Lemma do_proxy_configured cache clk client_get request url convert_github
      reply cache' events :
  configured cfg cache ->
  do_proxy cfg cache clk client_get request url convert_github
  = (reply, cache', events) ->
  configured cfg cache'.
Proof.
  intros Hcfg Hrun. unfold do_proxy in Hrun. cbv zeta in Hrun.
  split_run Hrun; injection Hrun as <- <- <-; try exact Hcfg;
    match goal with
    | E : TTLCache.getitem _ _ _ = _ |- _ =>
        apply CacheFacts.getitem_bounds in E as [E1 E2]
    | E : TTLCache.setitem _ _ _ _ = _ |- _ =>
        apply CacheFacts.setitem_bounds in E as [E1 E2]
    end;
    simpl in *; now rewrite E1, E2.
Qed.

(** What a fetch that returned a response leads to, by the cache and the
    length the response declares: the response is stored and returned
    whole; or the cache has no room and the store raises; or the response
    is streamed. *)
Lemma do_proxy_returned cache clk client_get request url convert_github
      reply cache' events u h resp :
  do_proxy cfg cache clk client_get request url convert_github
  = (reply, cache', events) ->
  In (Fetch u h) events ->
  client_get u h = Httpx.Returned resp ->
  let picked := pick_response_headers (Httpx.headers resp) in
  let status := Httpx.status_code resp in
  let value := (Httpx.content resp, picked, status) in
  (exists c n c',
     cache = Some c /\ declared_length resp = Some n /\ n <= 1048576
     /\ 1 <= TTLCache.maxsize c
     /\ TTLCache.find (cache_key_of u) (TTLCache.items c')
        = Some (value, at_setitem clk + TTLCache.ttl c)
     /\ reply = Response_init (Httpx.content resp) status picked
     /\ cache' = Some c'
     /\ events = [Fetch u h; Store (cache_key_of u) value])
  \/ (exists c n c',
        cache = Some c /\ declared_length resp = Some n /\ n <= 1048576
        /\ TTLCache.maxsize c < 1
        /\ reply = Uncaught (ValueError "value too large")
        /\ cache' = Some c'
        /\ events = [Fetch u h])
  \/ ((cache = None \/ declared_length resp = None
       \/ exists n, declared_length resp = Some n /\ 1048576 < n)
      /\ reply = StreamingResponse_init (stream_response resp) status picked
      /\ cache' = cache
      /\ events = [Fetch u h]).
Proof.
  intros Hrun Hin Hget picked status value.
  destruct (fetch_inv _ _ _ _ _ _ _ _ _ _ _ Hrun Hin) as (Ha & Hm & -> & ->).
  rewrite (do_proxy_miss _ _ _ _ _ _ Ha Hm) in Hrun. cbv zeta in Hrun.
  rewrite Hget in Hrun. fold picked status value in Hrun.
  destruct cache as [c|]; simpl in Hrun;
    [|injection Hrun as <- <- <-; right; right; auto 8].
  destruct (declared_length resp) as [n|] eqn:Hlen;
    [|injection Hrun as <- <- <-; right; right; auto 8].
  destruct (Z.leb_spec n 1048576) as [Hn|Hn];
    [|injection Hrun as <- <- <-; right; right; eauto 8].
  destruct (Z.ltb_spec (TTLCache.maxsize c) 1) as [Hmax|Hmax].
  - destruct (CacheFacts.setitem_without_capacity c
                (cache_key_of (target_url url convert_github)) value
                (at_setitem clk) Hmax) as (c' & E & _).
    rewrite E in Hrun. injection Hrun as <- <- <-.
    right; left. exists c, n, c'. auto 8.
  - destruct (CacheFacts.setitem_stores c
                (cache_key_of (target_url url convert_github)) value
                (at_setitem clk) Hmax) as (c' & E & _ & _ & Hf).
    rewrite E in Hrun. injection Hrun as <- <- <-.
    left. exists c, n, c'. auto 10.
Qed.

(** A fetch that returns a response with a declared length of at most
    1 MiB, on a cache that can hold an item: the body is stored with the
    picked headers and the status, and then returned whole. *)
Lemma do_proxy_stores cache clk client_get request url convert_github
      reply cache' events u h resp n :
  configured cfg cache -> 0 < CACHE_TTL cfg -> 1 <= CACHE_MAXSIZE cfg ->
  do_proxy cfg cache clk client_get request url convert_github
  = (reply, cache', events) ->
  In (Fetch u h) events ->
  client_get u h = Httpx.Returned resp ->
  declared_length resp = Some n -> n <= 1048576 ->
  let value := (Httpx.content resp,
                pick_response_headers (Httpx.headers resp),
                Httpx.status_code resp) in
  reply = Response_init (Httpx.content resp) (Httpx.status_code resp)
                        (pick_response_headers (Httpx.headers resp))
  /\ events = [Fetch u h; Store (cache_key_of u) value]
  /\ exists c',
       cache' = Some c' /\ configured cfg cache'
       /\ TTLCache.find (cache_key_of u) (TTLCache.items c')
          = Some (value, at_setitem clk + CACHE_TTL cfg).
Proof.
  intros Hcfg Httl Hmax Hrun Hin Hget Hlen Hn value.
  destruct (fetch_inv _ _ _ _ _ _ _ _ _ _ _ Hrun Hin) as (Ha & Hm & -> & ->).
  rewrite (do_proxy_miss _ _ _ _ _ _ Ha Hm) in Hrun. cbv zeta in Hrun.
  rewrite Hget in Hrun.
  destruct cache as [c|]; [|simpl in Hcfg; lia].
  destruct Hcfg as (_ & Ht & Hs). simpl in Hrun. rewrite Hlen in Hrun.
  destruct (Z.leb_spec n 1048576) as [_|]; [|lia].
  destruct (CacheFacts.setitem_stores c
              (cache_key_of (target_url url convert_github)) value
              (at_setitem clk)) as (c' & E & Hs' & Ht' & Hf); [lia|].
  fold value in Hrun. rewrite E in Hrun. injection Hrun as <- <- <-.
  repeat split. exists c'. repeat split; try lia. now rewrite Hf, Ht.
Qed.

(** A call for an accepted URL whose item is live replays the item and
    fetches nothing. *)
Lemma do_proxy_replays c clk client_get request url convert_github
      content headers status expires :
  allowed_scheme (normalize_url_param url) = Some true ->
  TTLCache.find (cache_key_of (target_url url convert_github))
                (TTLCache.items c)
  = Some ((content, headers, status), expires) ->
  at_contains clk < expires -> at_getitem clk < expires ->
  exists c',
    do_proxy cfg (Some c) clk client_get request url convert_github
    = (Response_init content status headers, Some c', [])
    /\ TTLCache.maxsize c' = TTLCache.maxsize c
    /\ TTLCache.ttl c' = TTLCache.ttl c
    /\ TTLCache.find (cache_key_of (target_url url convert_github))
                     (TTLCache.items c')
       = Some ((content, headers, status), expires).
Proof.
  intros Ha Hf Hc Hg.
  destruct (CacheFacts.getitem_live _ _ _ _ _ Hf Hg) as (c' & E & Hs & Ht & Hf').
  exists c'. rewrite do_proxy_hit, E; auto.
  rewrite (CacheFacts.contains_live _ _ _ _ _ Hf). now apply Z.ltb_lt.
Qed.

End ProxyFacts.

(* ================================================================== *)
(** * Properties of the proxy pipeline *)

Section Pipeline.

Context {lib : PyLib}.

Implicit Types (cfg : Config) (cache : option TTLCache.t) (clk : Clock)
         (client_get : string -> dict -> Httpx.GetResult)
         (request : Request) (url : string) (convert_github : bool).

(** C4. When the normalized URL has a scheme other than http and https,
    [do_proxy] answers 400 with the message "Only http/https supported",
    fetches nothing and leaves the cache as it is. *)
Theorem invalid_scheme_rejected cfg cache clk client_get request url
        convert_github scheme :
  urlparse_scheme (normalize_url_param url) = Some scheme ->
  scheme <> "http" -> scheme <> "https" ->
  do_proxy cfg cache clk client_get request url convert_github
  = (HTTPException 400 "Only http/https supported", cache, []).
Proof.
  intros Hs Hhttp Hhttps. unfold do_proxy, allowed_scheme. rewrite Hs.
  destruct (String.eqb_spec scheme "http"); [contradiction|].
  destruct (String.eqb_spec scheme "https"); [contradiction|]. reflexivity.
Qed.

(** C7. When the fetch of a call fails with a request error (connection,
    DNS, timeout), the call answers 502 with the detail
    "Upstream request failed: " followed by the description of the error;
    the cache is unchanged and nothing is stored. *)
Theorem upstream_failure_is_502 cfg cache clk client_get request url
        convert_github reply cache' events u h msg :
  do_proxy cfg cache clk client_get request url convert_github
  = (reply, cache', events) ->
  In (Fetch u h) events ->
  client_get u h = Httpx.RequestError msg ->
  reply = HTTPException 502 ("Upstream request failed: " ++ msg)
  /\ cache' = cache
  /\ events = [Fetch u h]
  /\ u = target_url url convert_github.
Proof.
  intros Hrun Hin Hget.
  destruct (fetch_inv _ _ _ _ _ _ _ _ _ _ _ _ Hrun Hin) as (Ha & Hm & -> & ->).
  rewrite (do_proxy_miss _ _ _ _ _ _ _ Ha Hm) in Hrun. cbv zeta in Hrun.
  rewrite Hget in Hrun. injection Hrun as <- <- <-. auto.
Qed.

(** C3, as the code has it.  After a fetch that returned a response, an
    item is stored exactly when there is a cache, the cache has room for at
    least one item, and the response declares a length that [int] accepts
    and that is at most 1,048,576; it is then stored under the key of the
    target URL, and the body is returned whole unless a picked header cannot
    be encoded.  A response that declares a larger length, or none, stores
    nothing and leaves the cache unchanged; unless a picked header cannot
    be encoded it is delivered as a stream: chunks of one byte to 64 KiB
    that, put together, are the body. *)
Theorem store_iff_small_declared_length cfg cache clk client_get request url
        convert_github reply cache' events u h resp :
  configured cfg cache ->
  do_proxy cfg cache clk client_get request url convert_github
  = (reply, cache', events) ->
  In (Fetch u h) events ->
  client_get u h = Httpx.Returned resp ->
  let picked := pick_response_headers (Httpx.headers resp) in
  let status := Httpx.status_code resp in
  let value := (Httpx.content resp, picked, status) in
  ((exists k v, In (Store k v) events)
   <-> 0 < CACHE_TTL cfg /\ 1 <= CACHE_MAXSIZE cfg
       /\ exists n, declared_length resp = Some n /\ n <= 1048576)
  /\ ((exists k v, In (Store k v) events) ->
      events = [Fetch u h; Store (cache_key_of u) value]
      /\ reply = Response_init (Httpx.content resp) status picked
      /\ (init_headers picked = None ->
          reply = Response (Httpx.content resp) status picked)
      /\ exists c',
           cache' = Some c'
           /\ TTLCache.find (cache_key_of u) (TTLCache.items c')
              = Some (value, at_setitem clk + CACHE_TTL cfg))
  /\ (declared_length resp = None
      \/ (exists n, declared_length resp = Some n /\ 1048576 < n) ->
      events = [Fetch u h]
      /\ cache' = cache
      /\ reply = StreamingResponse_init (stream_response resp) status picked
      /\ (init_headers picked = None ->
          exists chunks,
            reply = StreamingResponse chunks status picked
            /\ join_chunks chunks = Httpx.content resp
            /\ Forall (fun chunk =>
                         (1 <= String.length chunk <= MAX_STREAM_CHUNK)%nat)
                      chunks)).
Proof.
  intros Hcfg Hrun Hin Hget picked status value.
  assert (Hnone : ~ (exists k v, In (Store k v) [Fetch u h])).
  { intros (k & v & [[=]|[]]). }
  destruct (do_proxy_returned _ _ _ _ _ _ _ _ _ _ _ _ _ Hrun Hin Hget)
    as [(c & n & c' & -> & Hlen & Hn & Hmax & Hf & -> & -> & ->)
       |[(c & n & c' & -> & Hlen & Hn & Hmax & -> & -> & ->)
        |(Hwhy & -> & -> & ->)]].
  - destruct Hcfg as (Httl & Ht & Hs). rewrite Hs in Hmax. rewrite Ht in Hf.
    split; [split; [intros _; eauto|intros _; do 2 eexists; right; now left]|].
    split.
    + intros _. split; [reflexivity|]. split; [reflexivity|].
      split; [apply Response_init_built|]. eauto.
    + intros [H|(m & H & Hm)]; rewrite Hlen in H; [discriminate H|].
      injection H as <-. lia.
  - destruct Hcfg as (Httl & Ht & Hs). rewrite Hs in Hmax.
    split; [split; [intros H; contradiction|intros (_ & H & _); lia]|].
    split; [intros H; contradiction|].
    intros [H|(m & H & Hm)]; rewrite Hlen in H; [discriminate H|].
    injection H as <-. lia.
  - split.
    + split; [intros H; contradiction|]. intros (Httl & _ & m & Hlen & Hm).
      destruct Hwhy as [-> |[H|(n & H & Hn)]];
        [simpl in Hcfg; lia|congruence|].
      rewrite Hlen in H. injection H as <-. lia.
    + split; [intros H; contradiction|]. intros _.
      split; [reflexivity|]. split; [reflexivity|]. split; [reflexivity|].
      intros Hinit. exists (stream_response resp).
      split; [now apply StreamingResponse_init_built|].
      split; [apply ChunkFacts.stream_response_joins
             |apply ChunkFacts.stream_response_sizes].
Qed.

(** C2, as the code has it.  Two successive requests for the same target
    URL, the second one within the time-to-live of what the first one
    stored, on a cache with room for at least one item: when the response
    fetched by the first declared a length of at most 1,048,576, the second
    fetches nothing and ends as the first did.  That is with the body, the
    status and the picked headers of the fetched response when the picked
    headers can be encoded in latin-1; otherwise building the reply raises
    [UnicodeEncodeError], both times. *)
Theorem second_request_served_from_cache cfg cache
        clk1 client_get1 request1 url1 convert_github1 reply1 cache1 events1
        clk2 client_get2 request2 url2 convert_github2 reply2 cache2 events2
        u h resp n :
  configured cfg cache -> 1 <= CACHE_MAXSIZE cfg ->
  do_proxy cfg cache clk1 client_get1 request1 url1 convert_github1
  = (reply1, cache1, events1) ->
  In (Fetch u h) events1 ->
  client_get1 u h = Httpx.Returned resp ->
  declared_length resp = Some n -> n <= 1048576 ->
  allowed_scheme (normalize_url_param url2) = Some true ->
  target_url url2 convert_github2 = u ->
  at_setitem clk1 <= at_contains clk2 ->
  at_contains clk2 <= at_getitem clk2 ->
  at_getitem clk2 < at_setitem clk1 + CACHE_TTL cfg ->
  do_proxy cfg cache1 clk2 client_get2 request2 url2 convert_github2
  = (reply2, cache2, events2) ->
  let picked := pick_response_headers (Httpx.headers resp) in
  events2 = []
  /\ reply2 = reply1
  /\ reply1 = Response_init (Httpx.content resp) (Httpx.status_code resp)
                            picked
  /\ (init_headers picked = None ->
      reply1 = Response (Httpx.content resp) (Httpx.status_code resp) picked)
  /\ (init_headers picked <> None -> reply1 = Uncaught UnicodeEncodeError).
Proof.
  intros Hcfg Hmax Hrun1 Hin Hget Hlen Hn Ha2 Hu Ht1 Ht2 Ht3 Hrun2 picked.
  destruct (do_proxy_stores cfg _ _ _ _ _ _ _ _ _ _ _ _ _
              Hcfg ltac:(lia) Hmax Hrun1 Hin Hget Hlen Hn)
    as (-> & _ & c1 & -> & _ & Hf).
  rewrite <- Hu in Hf.
  destruct (do_proxy_replays cfg c1 clk2 client_get2 request2 _ _ _ _ _ _
              Ha2 Hf ltac:(lia) ltac:(lia)) as (c2 & E & _).
  rewrite E in Hrun2. injection Hrun2 as <- <- <-.
  repeat split; [apply Response_init_built|]. intros Hinit.
  destruct (init_headers_cases picked); [contradiction|].
  now apply Response_init_raised.
Qed.

(** C9, as the code has it.  The cache key is "proxy:" followed by the
    target URL; the request headers play no part in it.  When the cache
    holds a live item for the target URL, any two requests for it, whatever
    their Range headers, asked of the same cache or one after the other,
    fetch nothing and end alike: with the body, headers and status of that
    item when its headers can be encoded in latin-1, and otherwise with the
    [UnicodeEncodeError] of building the reply.  This includes an item
    stored by an earlier request that carried a Range header and was
    answered 206 (so with a declared length of at most 1,048,576): the
    Range header went upstream, the item is that partial body with status
    206, and that is what later requests get. *)
Theorem cached_reply_ignores_range cfg c clk1 client_get1 request1
        clk2 client_get2 request2 url convert_github
        content headers status expires :
  allowed_scheme (normalize_url_param url) = Some true ->
  TTLCache.find (cache_key_of (target_url url convert_github))
                (TTLCache.items c)
  = Some ((content, headers, status), expires) ->
  at_contains clk1 < expires -> at_getitem clk1 < expires ->
  at_contains clk2 < expires -> at_getitem clk2 < expires ->
  (exists reply c1 c2 c2',
     do_proxy cfg (Some c) clk1 client_get1 request1 url convert_github
     = (reply, Some c1, [])
     /\ do_proxy cfg (Some c) clk2 client_get2 request2 url convert_github
        = (reply, Some c2, [])
     /\ do_proxy cfg (Some c1) clk2 client_get2 request2 url convert_github
        = (reply, Some c2', [])
     /\ reply = Response_init content status headers
     /\ (init_headers headers = None ->
         reply = Response content status headers)
     /\ (init_headers headers <> None -> reply = Uncaught UnicodeEncodeError))
  /\ (forall cache0 clk0 client_get0 request0 url0 convert_github0
             reply0 events0 u h range resp k v,
        do_proxy cfg cache0 clk0 client_get0 request0 url0 convert_github0
        = (reply0, Some c, events0) ->
        header request0 "range" = Some range ->
        In (Fetch u h) events0 ->
        client_get0 u h = Httpx.Returned resp ->
        Httpx.status_code resp = 206 ->
        In (Store k v) events0 ->
        u = target_url url convert_github ->
        dict_get h "range" = Some range
        /\ (content, headers, status)
           = (Httpx.content resp,
              pick_response_headers (Httpx.headers resp), 206)
        /\ exists n, declared_length resp = Some n /\ n <= 1048576).
Proof.
  intros Ha Hf Hc1 Hg1 Hc2 Hg2. split.
  - destruct (do_proxy_replays cfg c clk1 client_get1 request1 _ _ _ _ _ _
                Ha Hf Hc1 Hg1) as (c1 & E1 & _ & _ & Hf1).
    destruct (do_proxy_replays cfg c clk2 client_get2 request2 _ _ _ _ _ _
                Ha Hf Hc2 Hg2) as (c2 & E2 & _).
    destruct (do_proxy_replays cfg c1 clk2 client_get2 request2 _ _ _ _ _ _
                Ha Hf1 Hc2 Hg2) as (c2' & E2' & _).
    exists (Response_init content status headers), c1, c2, c2'.
    repeat split; auto; [apply Response_init_built|]. intros Hinit.
    destruct (init_headers_cases headers); [contradiction|].
    now apply Response_init_raised.
  - intros cache0 clk0 client_get0 request0 url0 convert_github0
           reply0 events0 u h range resp k v
           Hrun Hrange Hin Hget Hstatus Hstore Hu.
    assert (Hh : h = out_headers_of cfg request0)
      by apply (fetch_inv _ _ _ _ _ _ _ _ _ _ _ _ Hrun Hin).
    destruct (do_proxy_returned _ _ _ _ _ _ _ _ _ _ _ _ _ Hrun Hin Hget)
      as [(c0 & n & c' & _ & Hlen & Hn & _ & Hf' & _ & [= <-] & _)
         |[(c0 & n & c' & _ & _ & _ & _ & _ & _ & ->)|(_ & _ & _ & ->)]];
      [|destruct Hstore as [[=]|[]]..].
    rewrite Hu, Hf, Hstatus in Hf'. injection Hf' as -> -> -> _.
    split; [|split; [reflexivity|eauto]].
    rewrite Hh. unfold out_headers_of. rewrite Hrange. reflexivity.
Qed.

(** C10, as the code has it.  Whether a response is stored does not depend
    on its status code: with a cache that has room for at least one item,
    every fetched response that declares a length of at most 1,048,576 is
    stored with the status it came with, whatever that is (404 and 500
    included), and a later request for the same target URL within the
    time-to-live fetches nothing and ends as the storing request did: with
    that body and that status when the picked headers can be encoded in
    latin-1, and otherwise with the [UnicodeEncodeError] of building the
    reply. *)
Theorem any_status_is_cached cfg cache
        clk1 client_get1 request1 url1 convert_github1 reply1 cache1 events1
        clk2 client_get2 request2 url2 convert_github2
        u h resp n :
  configured cfg cache -> 0 < CACHE_TTL cfg -> 1 <= CACHE_MAXSIZE cfg ->
  do_proxy cfg cache clk1 client_get1 request1 url1 convert_github1
  = (reply1, cache1, events1) ->
  In (Fetch u h) events1 ->
  client_get1 u h = Httpx.Returned resp ->
  declared_length resp = Some n -> n <= 1048576 ->
  let picked := pick_response_headers (Httpx.headers resp) in
  In (Store (cache_key_of u)
            (Httpx.content resp, picked, Httpx.status_code resp)) events1
  /\ reply1 = Response_init (Httpx.content resp) (Httpx.status_code resp)
                            picked
  /\ (init_headers picked = None ->
      reply1 = Response (Httpx.content resp) (Httpx.status_code resp) picked)
  /\ (init_headers picked <> None -> reply1 = Uncaught UnicodeEncodeError)
  /\ (allowed_scheme (normalize_url_param url2) = Some true ->
      target_url url2 convert_github2 = u ->
      at_contains clk2 < at_setitem clk1 + CACHE_TTL cfg ->
      at_getitem clk2 < at_setitem clk1 + CACHE_TTL cfg ->
      exists cache2,
        do_proxy cfg cache1 clk2 client_get2 request2 url2 convert_github2
        = (reply1, cache2, [])).
Proof.
  intros Hcfg Httl Hmax Hrun1 Hin Hget Hlen Hn picked.
  destruct (do_proxy_stores cfg _ _ _ _ _ _ _ _ _ _ _ _ _
              Hcfg Httl Hmax Hrun1 Hin Hget Hlen Hn)
    as (-> & -> & c1 & -> & _ & Hf).
  split; [right; now left|]. split; [reflexivity|].
  split; [apply Response_init_built|]. split.
  - intros Hinit. destruct (init_headers_cases picked); [contradiction|].
    now apply Response_init_raised.
  - intros Ha2 Hu Hc Hg. rewrite <- Hu in Hf.
    destruct (do_proxy_replays cfg c1 clk2 client_get2 request2 _ _ _ _ _ _
                Ha2 Hf Hc Hg) as (c2 & E & _).
    eauto.
Qed.


End Pipeline.

(* ================================================================== *)
(** * The routes *)

Module RouteFacts.

(** A case-sensitive literal matches nothing but its own spelling. *)
Lemma run_lits_inv kw r pos s caps k res :
  run false (Seq (lits kw) r) pos s caps k = Some res ->
  exists s', s = kw ++ s'
             /\ run false r (String.length kw + pos) s' caps k = Some res.
Proof.
  revert pos s; induction kw as [|c kw IH]; intros pos s H.
  - exists s. auto.
  - cbn [run lits] in H. destruct s as [|d s]; [discriminate H|].
    cbn [eat_lit] in H. destruct (Ascii.eqb_spec d c) as [->|_]; [|discriminate H].
    apply IH in H as (s' & -> & H). exists s'. split; [reflexivity|].
    now replace (String.length (String c kw) + pos)%nat
      with (String.length kw + (1 + pos))%nat by (simpl; lia).
Qed.

(** Where [/raw/] followed by anything matches, [/] followed by anything
    matches as well. *)
Lemma proxy_covers_raw path :
  re_match false path_proxy path = None ->
  re_match false path_raw path = None.
Proof.
  intros Hp. destruct (re_match false path_raw path) as [params|] eqn:Hr;
    [exfalso|reflexivity].
  unfold re_match, path_raw, seq in Hr. cbn [run Nat.eqb] in Hr.
  change (run false (Seq (lits "/raw/")
                         (Seq (Group (Star AnyButNewline)) (Seq Eol Eps)))
              0 path [] (fun _ _ caps => Some caps) = Some params) in Hr.
  apply run_lits_inv in Hr as (s & -> & Hr).
  unfold re_match, path_proxy, seq in Hp. cbn in Hp, Hr.
  match type of Hp with
  | context [star_loop ?p 5%nat s ?k] =>
      destruct (star_loop p 5%nat s k) eqn:E; [discriminate Hp|]
  end.
  apply (ReFacts.star_loop_none _ _
           (fun pos' s' =>
              if at_eol s' then Some [Str.take (pos' - 5) s] else None))
    with (pos' := 5%nat) in E.
  - congruence.
  - intros pos pos' s0. now destruct (at_eol s0).
Qed.

(** A route without parameters takes its own path and, of the paths of
    one line, no other. *)
Lemma no_char_app c s t :
  no_char c (s ++ t) = true -> no_char c t = true.
Proof.
  induction s as [|d s IH]; [auto|]. unfold no_char. simpl.
  intros H. apply andb_prop in H as [_ H]. now apply IH.
Qed.

Lemma fixed_path p path :
  no_char LF path = true ->
  re_match false (seq [Bol; lits p; Eol]) path
  = if String.eqb path p then Some [] else None.
Proof.
  intros Hpath. unfold re_match, seq. rewrite ReFacts.run_bol.
  destruct (String.eqb_spec path p) as [->|Hne].
  - rewrite <- (StrFacts.app_empty p) at 2. now rewrite ReFacts.run_lits.
  - destruct (run false _ 0 path [] _) as [res|] eqn:H; [exfalso|reflexivity].
    apply run_lits_inv in H as (s' & -> & H).
    apply no_char_app in Hpath. cbn [run] in H.
    destruct s' as [|c [|d s']]; cbn [at_eol] in H.
    + apply Hne, StrFacts.app_empty.
    + unfold no_char in Hpath. simpl in Hpath.
      destruct (Ascii.eqb c LF); discriminate.
    + discriminate H.
Qed.

(** The route ["/raw/{url:path}"] is registered after ["/{url:path}"], which
    matches every path that it matches: no request reaches [raw_path]. *)
Lemma raw_path_unreachable path params :
  first_match routes path <> Some (raw_path, params).
Proof.
  unfold routes. cbn [first_match].
  destruct (re_match false path_openapi path); [discriminate|].
  destruct (re_match false path_docs path); [discriminate|].
  destruct (re_match false path_oauth2_redirect path); [discriminate|].
  destruct (re_match false path_redoc path); [discriminate|].
  destruct (re_match false path_index path); [discriminate|].
  destruct (re_match false path_proxy path) eqn:E; [discriminate|].
  now rewrite (proxy_covers_raw _ E).
Qed.

(** A path under /raw/ goes to [proxy_path], with "raw/" in its [url]. *)
Lemma raw_goes_to_proxy_path x :
  no_char LF x = true ->
  first_match routes ("/raw/" ++ x) = Some (proxy_path, ["raw/" ++ x]).
Proof.
  intros Hx. unfold routes. cbn [first_match].
  change (re_match false path_openapi ("/raw/" ++ x))
    with (@None (list string)).
  change (re_match false path_docs ("/raw/" ++ x)) with (@None (list string)).
  change (re_match false path_oauth2_redirect ("/raw/" ++ x))
    with (@None (list string)).
  change (re_match false path_redoc ("/raw/" ++ x)) with (@None (list string)).
  change (re_match false path_index ("/raw/" ++ x)) with (@None (list string)).
  cbv iota. unfold re_match, path_proxy, seq.
  change ("/raw/" ++ x) with (String "/" ("raw/" ++ x)).
  rewrite ReFacts.run_bol, ReFacts.run_lit.
  rewrite <- (StrFacts.app_empty ("raw/" ++ x)) at 1.
  now rewrite ReFacts.run_group_star; auto using ReFacts.eol_rejects.
Qed.

End RouteFacts.

Section Routes.

Context {lib : PyLib}.

Lemma app_raw_is_plain_proxy cfg cache clk client_get request x :
  no_char LF x = true ->
  app cfg cache clk client_get request ("/raw/" ++ x)
  = Some (do_proxy cfg cache clk client_get request ("raw/" ++ x) false).
Proof.
  intros Hx. unfold app. now rewrite RouteFacts.raw_goes_to_proxy_path.
Qed.

End Routes.

(** C1 (fails on the code).  No path is ever dispatched to [raw_path]; the
    request "GET /raw/https://github.com/python/cpython/blob/main/README.rst"
    of the module's own documentation is served by [proxy_path] without
    rewriting and, with the standard library as in [cpython], answered 400
    with nothing fetched. *)
Theorem raw_route_is_shadowed :
  (forall path params, first_match routes path <> Some (raw_path, params))
  /\ (forall (lib : PyLib) cfg cache clk client_get request,
        app (lib := lib) cfg cache clk client_get request
            "/raw/https://github.com/python/cpython/blob/main/README.rst"
        = Some (do_proxy (lib := lib) cfg cache clk client_get request
                  "raw/https://github.com/python/cpython/blob/main/README.rst"
                  false))
  /\ (forall cfg cache clk client_get request,
        app (lib := cpython) cfg cache clk client_get request
            "/raw/https://github.com/python/cpython/blob/main/README.rst"
        = Some (HTTPException 400 "Only http/https supported", cache, [])).
Proof.
  split; [exact RouteFacts.raw_path_unreachable|]. split; intros; reflexivity.
Qed.

(* ================================================================== *)
(** * The properties on concrete requests

    The runs of [Example], with the standard library as in [cpython]. *)

Lemma invalid_scheme_rejected_witness :
  urlparse_scheme (normalize_url_param "ftp://example.com/a.txt") = Some "ftp"
  /\ do_proxy default_config (cache_at_start default_config) (Example.clock 0)
              Example.upstream_down Example.plain "ftp://example.com/a.txt" true
     = (HTTPException 400 "Only http/https supported",
        cache_at_start default_config, []).
Proof.
  split; [reflexivity|].
  apply (invalid_scheme_rejected (lib := cpython)) with (scheme := "ftp");
    [reflexivity|discriminate|discriminate].
Defined.

Lemma upstream_failure_is_502_witness :
  fst (fst Example.failed)
  = HTTPException 502 "Upstream request failed: All connection attempts failed"
  /\ snd (fst Example.failed) = cache_at_start default_config
  /\ snd Example.failed
     = [Fetch Example.url (out_headers_of default_config Example.ranged)].
Proof.
  destruct (upstream_failure_is_502 (lib := cpython)
              default_config (cache_at_start default_config) (Example.clock 0)
              Example.upstream_down Example.ranged Example.url false
              (fst (fst Example.failed)) (snd (fst Example.failed))
              (snd Example.failed)
              Example.url (out_headers_of default_config Example.ranged)
              "All connection attempts failed")
    as (H1 & H2 & H3 & _); [reflexivity|now left|reflexivity|].
  auto.
Defined.

Lemma store_iff_small_declared_length_witness :
  (exists k v, In (Store k v) (snd (Example.first 200)))
  /\ snd Example.large
     = [Fetch Example.url (out_headers_of default_config Example.plain)]
  /\ snd (fst Example.large) = cache_at_start default_config
  /\ exists chunks,
       fst (fst Example.large)
       = StreamingResponse chunks 200
           [("content-type", "text/plain"); ("content-length", "2097152")]
       /\ join_chunks chunks = "hello"
       /\ Forall (fun chunk =>
                    (1 <= String.length chunk <= MAX_STREAM_CHUNK)%nat) chunks.
Proof.
  split.
  - apply (store_iff_small_declared_length (lib := cpython)
             default_config (cache_at_start default_config) (Example.clock 0)
             (Example.upstream (Example.response 200 "5" "hello"))
             Example.ranged Example.url false
             (fst (fst (Example.first 200))) (snd (fst (Example.first 200)))
             (snd (Example.first 200))
             Example.url (out_headers_of default_config Example.ranged)
             (Example.response 200 "5" "hello"));
      [repeat split|reflexivity|now left|reflexivity|].
    split; [reflexivity|]. split; [discriminate|].
    exists 5. split; [reflexivity|discriminate].
  - destruct (store_iff_small_declared_length (lib := cpython)
                default_config (cache_at_start default_config) (Example.clock 0)
                (Example.upstream (Example.response 200 "2097152" "hello"))
                Example.plain Example.url false
                (fst (fst Example.large)) (snd (fst Example.large))
                (snd Example.large)
                Example.url (out_headers_of default_config Example.plain)
                (Example.response 200 "2097152" "hello"))
      as (_ & _ & H); [repeat split|reflexivity|now left|reflexivity|].
    destruct H as (H1 & H2 & _ & H3);
      [right; exists 2097152; split; reflexivity|].
    split; [exact H1|]. split; [exact H2|]. apply H3. reflexivity.
Defined.

Lemma second_request_served_from_cache_witness :
  snd (Example.second 200) = []
  /\ fst (fst (Example.second 200)) = fst (fst (Example.first 200))
  /\ fst (fst (Example.first 200))
     = Response "hello" 200
                [("content-type", "text/plain"); ("content-length", "5")].
Proof.
  destruct (second_request_served_from_cache (lib := cpython)
              default_config (cache_at_start default_config)
              (Example.clock 0)
              (Example.upstream (Example.response 200 "5" "hello"))
              Example.ranged Example.url false
              (fst (fst (Example.first 200))) (snd (fst (Example.first 200)))
              (snd (Example.first 200))
              (Example.clock 59) Example.upstream_down Example.plain
              Example.url false
              (fst (fst (Example.second 200))) (snd (fst (Example.second 200)))
              (snd (Example.second 200))
              Example.url (out_headers_of default_config Example.ranged)
              (Example.response 200 "5" "hello") 5)
    as (H1 & H2 & _ & H3 & _);
    [repeat split|discriminate|reflexivity|now left|reflexivity|reflexivity
     |discriminate|reflexivity|reflexivity|discriminate|discriminate
     |reflexivity|reflexivity|].
  split; [exact H1|]. split; [exact H2|]. apply H3. reflexivity.
Defined.

Lemma cached_reply_ignores_range_witness :
  exists reply c1 c2 c2',
    do_proxy default_config (Some (Example.cache_after_first 206))
             (Example.clock 30) Example.upstream_down Example.plain
             Example.url false
    = (reply, Some c1, [])
    /\ do_proxy default_config (Some (Example.cache_after_first 206))
                (Example.clock 59) Example.upstream_down Example.ranged
                Example.url false
       = (reply, Some c2, [])
    /\ do_proxy default_config (Some c1)
                (Example.clock 59) Example.upstream_down Example.ranged
                Example.url false
       = (reply, Some c2', [])
    /\ reply
       = Response "hello" 206
                  [("content-type", "text/plain"); ("content-length", "5")].
Proof.
  destruct (proj1 (cached_reply_ignores_range (lib := cpython)
                     default_config (Example.cache_after_first 206)
                     (Example.clock 30) Example.upstream_down Example.plain
                     (Example.clock 59) Example.upstream_down Example.ranged
                     Example.url false
                     "hello"
                     [("content-type", "text/plain"); ("content-length", "5")]
                     206 60 eq_refl eq_refl eq_refl eq_refl eq_refl eq_refl))
    as (reply & c1 & c2 & c2' & H1 & H2 & H3 & _ & H4 & _).
  exists reply, c1, c2, c2'. repeat split; try assumption.
  apply H4. reflexivity.
Defined.

Lemma any_status_is_cached_witness :
  In (Store (cache_key_of Example.url)
            ("hello",
             [("content-type", "text/plain"); ("content-length", "5")], 404))
     (snd (Example.first 404))
  /\ fst (fst (Example.first 404))
     = Response "hello" 404
                [("content-type", "text/plain"); ("content-length", "5")]
  /\ exists cache2,
       Example.second 404 = (fst (fst (Example.first 404)), cache2, []).
Proof.
  destruct (any_status_is_cached (lib := cpython)
              default_config (cache_at_start default_config)
              (Example.clock 0)
              (Example.upstream (Example.response 404 "5" "hello"))
              Example.ranged Example.url false
              (fst (fst (Example.first 404))) (snd (fst (Example.first 404)))
              (snd (Example.first 404))
              (Example.clock 59) Example.upstream_down Example.plain
              Example.url false
              Example.url (out_headers_of default_config Example.ranged)
              (Example.response 404 "5" "hello") 5)
    as (H1 & _ & H2 & _ & H3);
    [repeat split|reflexivity|discriminate|reflexivity|now left|reflexivity
     |reflexivity|discriminate|].
  split; [exact H1|]. split; [apply H2; reflexivity|].
  apply H3; reflexivity.
Defined.



(** C2 as stated fails on two pairs of requests.  With
    [GHPROXY_CACHE_MAXSIZE=0] the store of the first request raises, so the
    second request, one tick before the time-to-live is over, fetches
    again.  With an ETag above U+00FF the response is stored, but building
    the reply raises: the second request fetches nothing and returns no
    body, status or headers. *)
Lemma second_request_fetches_or_fails :
  (0 < CACHE_TTL Scenario.no_room
   /\ declared_length (Example.response 200 "5" "hello") = Some 5
   /\ Scenario.first_no_room 200
      = (Uncaught (ValueError "value too large"),
         cache_at_start Scenario.no_room,
         [Fetch Example.url (out_headers_of Scenario.no_room Example.ranged)])
   /\ snd (Scenario.second_no_room 200)
      = [Fetch Example.url (out_headers_of Scenario.no_room Example.plain)])
  /\ (declared_length (Scenario.tagged 200 "5" "hello") = Some 5
      /\ fst (fst (Scenario.first_tagged 200)) = Uncaught UnicodeEncodeError
      /\ fst (fst (Scenario.second_tagged 200 Example.plain))
         = Uncaught UnicodeEncodeError
      /\ snd (Scenario.second_tagged 200 Example.plain) = []).
Proof. repeat split. Qed.

(** C3 as stated fails on two responses.  With [GHPROXY_CACHE_MAXSIZE=0]
    caching is enabled and the response declares five bytes, yet nothing is
    stored.  A response that declares 2 MiB and has an ETag above U+00FF is
    not delivered as a stream: building the reply raises. *)
Lemma small_response_not_stored_without_room :
  (0 < CACHE_TTL Scenario.no_room
   /\ declared_length (Example.response 200 "5" "hello") = Some 5
   /\ snd (Scenario.first_no_room 200)
      = [Fetch Example.url (out_headers_of Scenario.no_room Example.ranged)]
   /\ fst (fst (Scenario.first_no_room 200))
      = Uncaught (ValueError "value too large"))
  /\ (declared_length (Scenario.tagged 200 "2097152" "hello") = Some 2097152
      /\ Scenario.large_tagged
         = (Uncaught UnicodeEncodeError, cache_at_start default_config,
            [Fetch Example.url
                   (out_headers_of default_config Example.plain)])).
Proof. repeat split. Qed.

(** C9 as stated fails on an item whose ETag is above U+00FF, stored by a
    ranged request that was answered 206: the item is live, and two later
    requests that differ in their Range header only get neither its body
    nor its status; building the reply raises for both. *)
Lemma unencodable_item_is_not_replayed :
  cached (snd (fst (Scenario.first_tagged 206))) (cache_key_of Example.url)
  = Some (("hello",
           [("content-type", "text/plain"); ("content-length", "5");
            ("etag", Scenario.zhong)], 206), 60)
  /\ fst (fst (Scenario.second_tagged 206 Example.plain))
     = Uncaught UnicodeEncodeError
  /\ fst (fst (Scenario.second_tagged 206 Example.ranged))
     = Uncaught UnicodeEncodeError
  /\ snd (Scenario.second_tagged 206 Example.plain) = []
  /\ snd (Scenario.second_tagged 206 Example.ranged) = [].
Proof. repeat split. Qed.

(** C10 as stated fails on two exchanges answered 404.  With
    [GHPROXY_CACHE_MAXSIZE=0] the response is not stored and the next
    request fetches again.  With an ETag above U+00FF the response is
    stored with its status, but the next request within the time-to-live
    does not replay it: building the reply raises. *)
Lemma response_not_stored_or_not_replayed :
  (0 < CACHE_TTL Scenario.no_room
   /\ declared_length (Example.response 404 "5" "hello") = Some 5
   /\ snd (Scenario.first_no_room 404)
      = [Fetch Example.url (out_headers_of Scenario.no_room Example.ranged)]
   /\ snd (Scenario.second_no_room 404)
      = [Fetch Example.url (out_headers_of Scenario.no_room Example.plain)])
  /\ (In (Store (cache_key_of Example.url)
                ("hello",
                 [("content-type", "text/plain"); ("content-length", "5");
                  ("etag", Scenario.zhong)], 404))
         (snd (Scenario.first_tagged 404))
      /\ Scenario.second_tagged 404 Example.plain
         = (Uncaught UnicodeEncodeError,
            snd (fst (Scenario.second_tagged 404 Example.plain)), [])).
Proof. repeat split. simpl. auto. Qed.

(* ================================================================== *)
(** * More on the header filter *)

Module HeaderFacts.

Lemma lower_char_idem c : Str.lower_char (Str.lower_char c) = Str.lower_char c.
Proof. destruct c as [[] [] [] [] [] [] [] []]; reflexivity. Qed.

Lemma lower_idem s : Str.lower (Str.lower s) = Str.lower s.
Proof. induction s; simpl; [reflexivity|]. now rewrite lower_char_idem, IHs. Qed.

Lemma values_of_lower_names h key :
  Httpx.values_of (lower_names h) key = Httpx.values_of h key.
Proof.
  unfold Httpx.values_of, lower_names.
  induction h as [|[name value] h IH]; [reflexivity|].
  cbn [map filter fst snd]. rewrite lower_idem.
  destruct (String.eqb (Str.lower name) (Str.lower key)); cbn [map snd];
    now rewrite IH.
Qed.

Lemma get_lower_names h key :
  Httpx.get (lower_names h) key = Httpx.get h key.
Proof. unfold Httpx.get. now rewrite values_of_lower_names. Qed.

(** The filter reads the response through [get] only. *)
Lemma pick_loop_ext h h' :
  (forall key, Httpx.get h key = Httpx.get h' key) ->
  forall names hdrs, pick_loop h names hdrs = pick_loop h' names hdrs.
Proof.
  intros E names; induction names as [|k names IH]; intros hdrs;
    [reflexivity|].
  cbn [pick_loop]. now rewrite E, IH.
Qed.

Lemma picked_of_cases h k :
  picked_of h k = []
  \/ exists c v, Httpx.get h k = Some (String c v)
                 /\ picked_of h k = [(k, String c v)].
Proof.
  unfold picked_of. destruct (Httpx.get h k) as [[|c v]|]; simpl; eauto.
Qed.

Lemma subsequence_weaken names :
  forall l, is_subsequence l names = true ->
  (forall n, is_subsequence l (n :: names) = true)
  /\ (forall x l', l = x :: l' -> is_subsequence l' names = true).
Proof.
  induction names as [|m names IH]; intros l H.
  - destruct l; [|discriminate H]. split; [reflexivity|discriminate].
  - assert (Htail : forall x l', l = x :: l' ->
                                 is_subsequence l' (m :: names) = true).
    { intros x l' ->. cbn [is_subsequence] in H.
      destruct (String.eqb x m).
      - now apply IH.
      - destruct (IH _ H) as [_ Ht]. apply IH. now apply (Ht x). }
    split; [|exact Htail].
    intros n. destruct l as [|x l']; [reflexivity|].
    cbn [is_subsequence]. destruct (String.eqb x n).
    + now apply (Htail x).
    + exact H.
Qed.

Lemma subsequence_skip l n names :
  is_subsequence l names = true -> is_subsequence l (n :: names) = true.
Proof. intros H. now apply subsequence_weaken. Qed.

Lemma picked_names_in_order h names :
  is_subsequence (map fst (flat_map (picked_of h) names)) names = true.
Proof.
  induction names as [|k names IH]; [reflexivity|].
  cbn [flat_map]. rewrite map_app.
  destruct (picked_of_cases h k) as [-> |(c & v & _ & ->)]; cbn.
  - now apply subsequence_skip.
  - now rewrite String.eqb_refl.
Qed.

Lemma subsequence_length l names :
  is_subsequence l names = true -> (List.length l <= List.length names)%nat.
Proof.
  revert l; induction names as [|n names IH]; intros [|x l] H; simpl;
    try lia; [discriminate H|].
  cbn [is_subsequence] in H. destruct (String.eqb x n).
  - apply IH in H. lia.
  - apply IH in H. simpl in H. lia.
Qed.

Lemma subsequence_in l names x :
  is_subsequence l names = true -> In x l -> In x names.
Proof.
  revert l; induction names as [|n names IH]; intros [|y l] H Hin;
    try destruct Hin; try discriminate H.
  - cbn [is_subsequence] in H. destruct (String.eqb_spec y n) as [->|_].
    + now left.
    + right. apply (IH _ H). now left.
  - cbn [is_subsequence] in H. destruct (String.eqb_spec y n) as [->|_].
    + right. now apply (IH l).
    + right. apply (IH _ H). now right.
Qed.

Lemma subsequence_nodup l names :
  NoDup names -> is_subsequence l names = true -> NoDup l.
Proof.
  intros Hnd; revert l; induction Hnd as [|n names Hn Hnd IH]; intros [|x l] H;
    try constructor; try discriminate H.
  - cbn [is_subsequence] in H. destruct (String.eqb_spec x n) as [->|_].
    + intros Hin. apply Hn. now apply (subsequence_in l).
    + assert (Hx := IH _ H). now inversion Hx.
  - cbn [is_subsequence] in H. destruct (String.eqb_spec x n) as [->|_].
    + now apply IH.
    + assert (Hx := IH _ H). now inversion Hx.
Qed.

End HeaderFacts.

(** X2. Filtering twice is filtering once: the picked headers, read as the
    headers of a response, are picked unchanged. *)
Theorem pick_response_headers_idempotent h :
  pick_response_headers (pick_response_headers h) = pick_response_headers h.
Proof.
  rewrite (pick_response_headers_flat h). unfold picked_names.
  cbn [flat_map].
  repeat match goal with
         | |- context [picked_of h ?k] =>
             destruct (HeaderFacts.picked_of_cases h k)
               as [-> |(? & ? & _ & ->)]
         end;
    reflexivity.
Qed.

(** X3. Only the lower-case form of a header name matters: two responses
    whose header lines agree once the names are put in lower case have the
    same picked headers. *)
Theorem pick_response_headers_name_case h h' :
  lower_names h = lower_names h' ->
  pick_response_headers h = pick_response_headers h'.
Proof.
  intros E. unfold pick_response_headers. apply HeaderFacts.pick_loop_ext.
  intros key.
  now rewrite <- (HeaderFacts.get_lower_names h), E, HeaderFacts.get_lower_names.
Qed.

Lemma pick_response_headers_name_case_witness :
  pick_response_headers [("ETAG", "abc"); ("Content-Length", "5")]
  = pick_response_headers [("etag", "abc"); ("content-length", "5")].
Proof.
  apply (pick_response_headers_name_case
           [("ETAG", "abc"); ("Content-Length", "5")]
           [("etag", "abc"); ("content-length", "5")]).
  reflexivity.
Defined.

(** X4. The picked headers come in the order of the list of six names,
    each name at most once: their names are that list with some names left
    out, so there are never more than six. *)
Theorem pick_response_headers_in_order h :
  is_subsequence (map fst (pick_response_headers h)) picked_names = true
  /\ NoDup (map fst (pick_response_headers h))
  /\ (List.length (pick_response_headers h) <= 6)%nat.
Proof.
  assert (H : is_subsequence (map fst (pick_response_headers h)) picked_names
              = true)
    by (rewrite pick_response_headers_flat;
        apply HeaderFacts.picked_names_in_order).
  split; [exact H|]. split.
  - apply (HeaderFacts.subsequence_nodup _ picked_names); [|exact H].
    unfold picked_names.
    repeat (constructor; [simpl; intuition discriminate|]). constructor.
  - apply HeaderFacts.subsequence_length in H.
    now rewrite length_map in H.
Qed.

(* ================================================================== *)
(** * More on the orchestrator *)

Section Orchestrator.

Context {lib : PyLib}.

Implicit Types (cfg : Config) (cache : option TTLCache.t) (clk : Clock)
         (client_get : string -> dict -> Httpx.GetResult)
         (request : Request) (url : string) (convert_github : bool).

Lemma setitem_raises c key v now e c' :
  TTLCache.setitem c key v now = (Some e, c') -> TTLCache.maxsize c < 1.
Proof.
  unfold TTLCache.setitem.
  destruct (Z.ltb_spec (TTLCache.maxsize c) 1); [auto|discriminate].
Qed.


Lemma github_to_raw_cases u :
  github_to_raw u = u \/ exists groups, github_to_raw u = raw_url groups.
Proof.
  unfold github_to_raw.
  destruct (re_match true gh_blob_regex u); [eauto|].
  destruct (re_match true gh_tree_regex u); eauto.
Qed.

(** An accepted URL that the cache does not have is fetched, before
    anything else happens. *)
Lemma miss_fetches cfg cache clk client_get request url convert_github :
  allowed_scheme (normalize_url_param url) = Some true ->
  cache_hit cache (cache_key_of (target_url url convert_github))
            (at_contains clk) = false ->
  exists tail,
    snd (do_proxy cfg cache clk client_get request url convert_github)
    = Fetch (target_url url convert_github) (out_headers_of cfg request)
        :: tail.
Proof.
  intros Ha Hm. rewrite (do_proxy_miss _ _ _ _ _ _ _ Ha Hm). cbv zeta.
  repeat match goal with
         | |- context [match ?x with _ => _ end] => destruct x
         end; simpl; eauto.
Qed.

(** X5. Whatever a fetch returns is what the caller gets: the body of the
    reply (whole, or as chunks put together) is the body of the upstream
    response and the status is the upstream status, on the buffered and on
    the streaming path.  There are two exceptions, and in both the call
    ends without a reply: a picked header with a character above U+00FF,
    for which building the reply raises [UnicodeEncodeError]; and a cache
    of size below one, where the store raises [ValueError]. *)
Theorem fetched_response_is_delivered cfg cache clk client_get request url
        convert_github reply cache' events u h resp :
  do_proxy cfg cache clk client_get request url convert_github
  = (reply, cache', events) ->
  In (Fetch u h) events ->
  client_get u h = Httpx.Returned resp ->
  let picked := pick_response_headers (Httpx.headers resp) in
  (init_headers picked = None
   /\ body_of_reply reply = Some (Httpx.content resp)
   /\ status_of_reply reply = Some (Httpx.status_code resp)
   /\ headers_of_reply reply = Some picked)
  \/ (init_headers picked = Some UnicodeEncodeError
      /\ reply = Uncaught UnicodeEncodeError)
  \/ (exists c n,
        cache = Some c /\ TTLCache.maxsize c < 1
        /\ declared_length resp = Some n /\ n <= 1048576
        /\ reply = Uncaught (ValueError "value too large")
        /\ events = [Fetch u h]).
Proof.
  intros Hrun Hin Hget picked.
  destruct (do_proxy_returned _ _ _ _ _ _ _ _ _ _ _ _ _ Hrun Hin Hget)
    as [(c & n & c' & _ & _ & _ & _ & _ & -> & _)
       |[(c & n & c' & -> & Hlen & Hn & Hmax & -> & _ & ->)|(_ & -> & _)]];
    [|right; right; eauto 8|];
    destruct (init_headers_cases picked) as [E|E];
    try (right; left; split; [exact E|];
         first [now apply Response_init_raised
               |now apply StreamingResponse_init_raised]);
    left; (split; [exact E|]).
  - now rewrite (Response_init_built _ _ _ E).
  - rewrite (StreamingResponse_init_built _ _ _ E). simpl.
    now rewrite ChunkFacts.stream_response_joins.
Qed.

(** X6. The [headers=] argument that [do_proxy] hands to [client.get]
    holds the configured User-Agent and, when the inbound request has a
    Range header, that header with its value, and nothing else: no other
    header of the inbound request is copied into it.  (What httpx adds of
    its own when it sends the request is not decided in main.py.) *)
Theorem upstream_request_headers cfg cache clk client_get request url
        convert_github :
  let '(_, _, events) :=
    do_proxy cfg cache clk client_get request url convert_github in
  forall u h,
    In (Fetch u h) events ->
    dict_get h "user-agent" = Some (GHPROXY_USER_AGENT cfg)
    /\ dict_get h "range" = header request "range"
    /\ (forall k v, In (k, v) h ->
          (k = "user-agent" /\ v = GHPROXY_USER_AGENT cfg)
          \/ (k = "range" /\ header request "range" = Some v)).
Proof.
  destruct (do_proxy cfg cache clk client_get request url convert_github)
    as [[reply cache'] events] eqn:Hrun.
  intros u h Hin.
  destruct (fetch_inv _ _ _ _ _ _ _ _ _ _ _ _ Hrun Hin) as (_ & _ & _ & ->).
  unfold out_headers_of. destruct (header request "range") as [range|]; simpl;
    (split; [reflexivity|split; [reflexivity|]]);
    intros k v Hkv; simpl in Hkv; intuition congruence.
Qed.


(** X8. A URL is fetched only after the normalized URL passed the scheme
    check, and it is that normalized URL itself or, on the converting
    route only, the URL the rewriter made of it, which then starts with
    https://raw.githubusercontent.com/. *)
Theorem fetched_url_provenance cfg cache clk client_get request url
        convert_github :
  let '(_, _, events) :=
    do_proxy cfg cache clk client_get request url convert_github in
  forall u h,
    In (Fetch u h) events ->
    allowed_scheme (normalize_url_param url) = Some true
    /\ (u = normalize_url_param url
        \/ (convert_github = true
            /\ u = github_to_raw (normalize_url_param url)
            /\ Str.startswith u "https://raw.githubusercontent.com/" = true)).
Proof.
  destruct (do_proxy cfg cache clk client_get request url convert_github)
    as [[reply cache'] events] eqn:Hrun.
  intros u h Hin.
  destruct (fetch_inv _ _ _ _ _ _ _ _ _ _ _ _ Hrun Hin) as (Ha & _ & -> & _).
  split; [exact Ha|]. unfold target_url. cbv zeta.
  destruct convert_github; [|now left].
  destruct (github_to_raw_cases (normalize_url_param url)) as [-> |[groups E]];
    [now left|].
  right. rewrite E. repeat split.
Qed.

(** X9. [do_proxy] raises no HTTP error but these two: 400 with the fixed
    message, exactly when the scheme check says no, before anything is
    fetched; and 502, exactly when its fetch raised a request error, whose
    description follows the fixed prefix.  Either way the cache is left as
    it was. *)
Theorem http_errors_are_400_or_502 cfg cache clk client_get request url
        convert_github :
  let '(reply, cache', events) :=
    do_proxy cfg cache clk client_get request url convert_github in
  forall code detail,
    reply = HTTPException code detail ->
    cache' = cache
    /\ ((code = 400 /\ detail = "Only http/https supported" /\ events = []
         /\ allowed_scheme (normalize_url_param url) = Some false)
        \/ (code = 502
            /\ allowed_scheme (normalize_url_param url) = Some true
            /\ exists msg,
                 client_get (target_url url convert_github)
                            (out_headers_of cfg request)
                 = Httpx.RequestError msg
                 /\ detail = "Upstream request failed: " ++ msg
                 /\ events = [Fetch (target_url url convert_github)
                                    (out_headers_of cfg request)])).
Proof.
  destruct (do_proxy cfg cache clk client_get request url convert_github)
    as [[reply cache'] events] eqn:Hrun.
  intros code detail ->.
  destruct (allowed_scheme (normalize_url_param url)) as [[|]|] eqn:Ha.
  - destruct (cache_hit cache (cache_key_of (target_url url convert_github))
                        (at_contains clk)) eqn:Hh.
    + destruct cache as [c|]; [|discriminate Hh]. simpl in Hh.
      rewrite (do_proxy_hit _ _ _ _ _ _ _ Ha Hh) in Hrun.
      split_run Hrun; split_init Hrun; discriminate Hrun.
    + rewrite (do_proxy_miss _ _ _ _ _ _ _ Ha Hh) in Hrun.
      cbv zeta in Hrun.
      split_run Hrun; split_init Hrun; try discriminate Hrun.
      injection Hrun as <- <- <- <-. split; [reflexivity|]. right. eauto 8.
  - unfold do_proxy in Hrun. rewrite Ha in Hrun.
    injection Hrun as <- <- <- <-. auto 8.
  - unfold do_proxy in Hrun. rewrite Ha in Hrun. discriminate Hrun.
Qed.

End Orchestrator.

(* ================================================================== *)
(** * More on the use of the cache *)

Module ItemFacts.
Import TTLCache.

Implicit Types (l : list (string * (Value * Z))) (key k : string).

Lemma find_in key l x : find key l = Some x -> In key (map fst l).
Proof.
  induction l as [|[k y] l IH]; simpl; [discriminate|].
  destruct (String.eqb_spec k key) as [->|_]; auto.
Qed.

Lemma find_remove_other key k l :
  k <> key -> find k (remove key l) = find k l.
Proof.
  intros Hk. induction l as [|[k0 y] l IH]; simpl; [reflexivity|].
  destruct (String.eqb_spec k0 key) as [->|Hne]; simpl.
  - destruct (String.eqb_spec key k); [congruence|assumption].
  - now rewrite IH.
Qed.

Lemma find_reinserted_other key k l x :
  k <> key -> find k (remove key l ++ [(key, x)]) = find k l.
Proof.
  intros Hk. rewrite CacheFacts.find_app, find_remove_other by assumption.
  destruct (find k l); [reflexivity|]. simpl.
  destruct (String.eqb_spec key k); [congruence|reflexivity].
Qed.

Lemma keys_filter f l x :
  In x (map fst (List.filter f l)) -> In x (map fst l).
Proof.
  rewrite !in_map_iff. intros (y & E & Hy). apply filter_In in Hy as [Hy _].
  eauto.
Qed.

Lemma nodup_filter f l :
  NoDup (map fst l) -> NoDup (map fst (List.filter f l)).
Proof.
  induction l as [|[k y] l IH]; simpl; intros H; [constructor|].
  inversion H as [|? ? Hk Hl]; subst.
  destruct (f (k, y)); simpl; [constructor|]; auto.
  intros Hin. apply Hk. eapply keys_filter; eassumption.
Qed.

Lemma keys_skipn n l x : In x (map fst (skipn n l)) -> In x (map fst l).
Proof.
  revert l; induction n as [|n IH]; intros [|[k y] l]; simpl; auto.
Qed.

Lemma nodup_skipn n l : NoDup (map fst l) -> NoDup (map fst (skipn n l)).
Proof.
  revert l; induction n as [|n IH]; intros [|[k y] l] H; simpl; auto.
  inversion H; subst. now apply IH.
Qed.

Lemma nodup_reinserted key l x :
  NoDup (map fst l) -> NoDup (map fst (remove key l ++ [(key, x)])).
Proof.
  intros H. rewrite map_app. apply NoDup_app.
  - now apply nodup_filter.
  - repeat constructor. simpl; tauto.
  - intros k Hk [<-|[]].
    apply in_map_iff in Hk as ([k' y] & E & Hin). simpl in E. subst k'.
    apply filter_In in Hin as [_ Hin]. simpl in Hin.
    now rewrite String.eqb_refl in Hin.
Qed.

(** With one item per key, dropping items changes no other item. *)
Lemma find_filter key f l x :
  NoDup (map fst l) -> find key (List.filter f l) = Some x -> find key l = Some x.
Proof.
  induction l as [|[k y] l IH]; simpl; intros H E; [discriminate E|].
  inversion H as [|? ? Hk Hl]; subst.
  destruct (String.eqb_spec k key) as [->|Hne].
  - destruct (f (key, y)); simpl in E.
    + now rewrite String.eqb_refl in E.
    + exfalso. apply Hk. eapply keys_filter, find_in. eassumption.
  - destruct (f (k, y)); simpl in E; [|now apply IH].
    destruct (String.eqb_spec k key); [contradiction|now apply IH].
Qed.

Lemma find_skipn key n l x :
  NoDup (map fst l) -> find key (skipn n l) = Some x -> find key l = Some x.
Proof.
  revert l; induction n as [|n IH]; intros [|[k y] l] H E; simpl in *; auto.
  inversion H as [|? ? Hk Hl]; subst.
  destruct (String.eqb_spec k key) as [->|_]; [|now apply IH].
  exfalso. apply Hk. eapply keys_skipn, find_in. eassumption.
Qed.

Lemma length_remove key l :
  (List.length (remove key l) <= List.length l)%nat.
Proof. apply filter_length_le. Qed.

Lemma length_remove_found key l x :
  find key l = Some x -> (S (List.length (remove key l)) <= List.length l)%nat.
Proof.
  induction l as [|[k y] l IH]; simpl; [discriminate|].
  destruct (String.eqb_spec k key) as [->|_]; simpl.
  - intros _. assert (H := length_remove key l). lia.
  - intros E. apply IH in E. lia.
Qed.

Lemma length_expire now l :
  (List.length (expire now l) <= List.length l)%nat.
Proof. apply filter_length_le. Qed.

(** Reading keeps the cache well-formed. *)
Lemma getitem_ok c key now r c' :
  cache_ok (Some c) -> getitem c key now = (r, c') -> cache_ok (Some c').
Proof.
  unfold cache_ok, cache_keys, getitem. intros [Hnd Hlen].
  destruct (find key (items c)) as [[v expires]|] eqn:E;
    [|intros [= <- <-]; auto].
  assert (Hrem := length_remove_found _ _ _ E).
  destruct (now <? expires); intros [= <- <-]; simpl;
    (split; [now apply nodup_reinserted|]);
    rewrite length_app; simpl; lia.
Qed.

(** Writing keeps the cache well-formed. *)
Lemma setitem_ok c key v now r c' :
  cache_ok (Some c) -> setitem c key v now = (r, c') -> cache_ok (Some c').
Proof.
  unfold cache_ok, cache_keys, setitem. intros [Hnd Hlen].
  assert (Hexp := length_expire now (items c)).
  destruct (Z.ltb_spec (maxsize c) 1) as [Hsmall|Hbig]; intros [= <- <-]; simpl.
  - split; [now apply nodup_filter|lia].
  - destruct (find key (expire now (items c))) as [x|] eqn:E.
    + split; [now apply nodup_reinserted, nodup_filter|].
      apply length_remove_found in E. rewrite length_app. simpl. lia.
    + split; [now apply nodup_reinserted, nodup_skipn, nodup_filter|].
      rewrite length_app. simpl.
      assert (Hrem := length_remove key
                        (skipn (Z.to_nat
                                  (Z.of_nat (List.length (expire now (items c)))
                                   + 1 - maxsize c))
                               (expire now (items c)))).
      rewrite length_skipn in Hrem. lia.
Qed.

(** Reading changes no other item. *)
Lemma getitem_other c key now r c' k :
  getitem c key now = (r, c') -> k <> key ->
  find k (items c') = find k (items c).
Proof.
  unfold getitem. intros E Hk.
  destruct (find key (items c)) as [[v expires]|];
    [destruct (now <? expires)|]; injection E as <- <-; simpl;
    auto using find_reinserted_other.
Qed.

(** Writing changes no other item, though it may drop it. *)
Lemma setitem_other c key v now r c' k :
  NoDup (cache_keys c) ->
  setitem c key v now = (r, c') -> k <> key ->
  find k (items c') = None \/ find k (items c') = find k (items c).
Proof.
  unfold cache_keys, setitem. intros Hnd E Hk.
  assert (Hlive : forall x, find k (expire now (items c)) = Some x ->
                            find k (items c) = Some x)
    by (intros x; now apply find_filter).
  destruct (maxsize c <? 1); injection E as <- <-; simpl.
  - destruct (find k (expire now (items c))) as [x|] eqn:Ex; [|now left].
    right. symmetry. now apply Hlive.
  - rewrite find_reinserted_other by assumption.
    destruct (find key (expire now (items c))).
    + destruct (find k (expire now (items c))) as [x|] eqn:Ex; [|now left].
      right. symmetry. now apply Hlive.
    + match goal with
      | |- find k ?l = None \/ _ => destruct (find k l) as [x|] eqn:Ex
      end; [|now left].
      right. symmetry. apply Hlive.
      eapply find_skipn; [|eassumption]. now apply nodup_filter.
Qed.

End ItemFacts.

Section CacheUse.

Context {lib : PyLib}.

Implicit Types (cfg : Config) (cache : option TTLCache.t) (clk : Clock)
         (client_get : string -> dict -> Httpx.GetResult)
         (request : Request) (url : string) (convert_github : bool).

(** X10. Once the time-to-live of a stored response has passed, the next
    request for the same target URL is answered by a new fetch, not from
    the cache. *)
Theorem expired_response_is_fetched_again cfg cache
        clk1 client_get1 request1 url1 convert_github1 reply1 cache1 events1
        clk2 client_get2 request2 url2 convert_github2
        u h resp n :
  configured cfg cache -> 1 <= CACHE_MAXSIZE cfg ->
  do_proxy cfg cache clk1 client_get1 request1 url1 convert_github1
  = (reply1, cache1, events1) ->
  In (Fetch u h) events1 ->
  client_get1 u h = Httpx.Returned resp ->
  declared_length resp = Some n -> n <= 1048576 ->
  allowed_scheme (normalize_url_param url2) = Some true ->
  target_url url2 convert_github2 = u ->
  at_setitem clk1 + CACHE_TTL cfg <= at_contains clk2 ->
  exists tail,
    snd (do_proxy cfg cache1 clk2 client_get2 request2 url2 convert_github2)
    = Fetch u (out_headers_of cfg request2) :: tail.
Proof.
  intros Hcfg Hmax Hrun1 Hin Hget Hlen Hn Ha2 Hu Hlate. subst u.
  apply miss_fetches; [assumption|].
  destruct cache as [c|].
  - destruct (do_proxy_stores cfg _ _ _ _ _ _ _ _ _ _ _ _ _
                Hcfg ltac:(apply Hcfg) Hmax Hrun1 Hin Hget Hlen Hn)
      as (_ & _ & c1 & -> & _ & Hf).
    simpl. rewrite (CacheFacts.contains_live _ _ _ _ _ Hf).
    apply Z.ltb_ge. lia.
  - assert (H1 := do_proxy_configured cfg _ _ _ _ _ _ _ _ _ Hcfg Hrun1).
    destruct cache1 as [c1|]; [|reflexivity].
    simpl in Hcfg, H1. lia.
Qed.

(** X11. With a time-to-live of zero or less there is no cache: nothing is
    ever stored or served from memory, every accepted request is fetched,
    and every response that arrives is handed to the streaming reply: it
    is streamed with the upstream status and the picked headers, or, when a
    picked header has a character above U+00FF, building the reply raises
    [UnicodeEncodeError]. *)
Theorem caching_disabled cfg cache clk client_get request url convert_github
        reply cache' events :
  CACHE_TTL cfg <= 0 -> configured cfg cache ->
  do_proxy cfg cache clk client_get request url convert_github
  = (reply, cache', events) ->
  cache_at_start cfg = None /\ cache = None /\ cache' = None
  /\ (forall k v, ~ In (Store k v) events)
  /\ (forall content status headers, reply <> Response content status headers)
  /\ (allowed_scheme (normalize_url_param url) = Some true ->
      events = [Fetch (target_url url convert_github)
                      (out_headers_of cfg request)]
      /\ forall resp,
           client_get (target_url url convert_github)
                      (out_headers_of cfg request)
           = Httpx.Returned resp ->
           let picked := pick_response_headers (Httpx.headers resp) in
           reply = StreamingResponse_init
                     (stream_response resp) (Httpx.status_code resp) picked
           /\ (init_headers picked = None ->
               reply = StreamingResponse
                         (stream_response resp) (Httpx.status_code resp)
                         picked
               /\ body_of_reply reply = Some (Httpx.content resp))
           /\ (init_headers picked <> None ->
               reply = Uncaught UnicodeEncodeError)).
Proof.
  intros Httl Hcfg Hrun.
  assert (Hstart : cache_at_start cfg = None).
  { unfold cache_at_start. destruct (Z.ltb_spec 0 (CACHE_TTL cfg)); [lia|auto]. }
  destruct cache as [c|]; [simpl in Hcfg; lia|].
  split; [exact Hstart|]. split; [reflexivity|].
  destruct (allowed_scheme (normalize_url_param url)) as [[|]|] eqn:Ha.
  - rewrite (do_proxy_miss cfg None clk client_get request url convert_github
               Ha eq_refl) in Hrun.
    cbv zeta in Hrun. simpl in Hrun.
    destruct (client_get _ _) as [resp|msg|e]; injection Hrun as <- <- <-;
      (split; [reflexivity|]);
      (split; [intros k v [Hs|[]]; discriminate Hs|]);
      (split; [|intros _; (split; [reflexivity|]); intros resp' [= <-]]);
      try discriminate.
    + intros content status headers.
      destruct (init_headers_cases (pick_response_headers (Httpx.headers resp)))
        as [E|E];
        [rewrite (StreamingResponse_init_built _ _ _ E)
        |rewrite (StreamingResponse_init_raised _ _ _ E)]; discriminate.
    + cbv zeta. split; [reflexivity|]. split.
      * intros E. rewrite (StreamingResponse_init_built _ _ _ E).
        split; [reflexivity|]. simpl.
        now rewrite ChunkFacts.stream_response_joins.
      * intros Hinit.
        destruct (init_headers_cases
                    (pick_response_headers (Httpx.headers resp)));
          [contradiction|].
        now apply StreamingResponse_init_raised.
  - unfold do_proxy in Hrun. rewrite Ha in Hrun. injection Hrun as <- <- <-.
    repeat split; try discriminate; auto.
  - unfold do_proxy in Hrun. rewrite Ha in Hrun. injection Hrun as <- <- <-.
    repeat split; try discriminate; auto.
Qed.

(** X12. The cache stays well-formed from start to end of every call: one
    item per key, and never more items than [CACHE_MAXSIZE]. *)
Theorem cache_stays_well_formed cfg cache clk client_get request url
        convert_github reply cache' events :
  cache_ok cache ->
  do_proxy cfg cache clk client_get request url convert_github
  = (reply, cache', events) ->
  cache_ok (cache_at_start cfg) /\ cache_ok cache'.
Proof.
  intros Hok Hrun. split.
  - unfold cache_at_start. destruct (0 <? CACHE_TTL cfg); simpl; [|exact I].
    split; [constructor|lia].
  - unfold do_proxy in Hrun. cbv zeta in Hrun.
    split_run Hrun; injection Hrun as <- <- <-; try exact Hok;
      match goal with
      | E : TTLCache.getitem _ _ _ = _ |- _ =>
          exact (ItemFacts.getitem_ok _ _ _ _ _ Hok E)
      | E : TTLCache.setitem _ _ _ _ = _ |- _ =>
          exact (ItemFacts.setitem_ok _ _ _ _ _ _ Hok E)
      end.
Qed.

(** X13. A call touches the cache under one key only, the key of its own
    target URL: what the cache holds under any other key afterwards is
    what it held before, unless that item was dropped (expired or pushed
    out) to make room. *)
Theorem other_keys_untouched cfg cache clk client_get request url
        convert_github reply cache' events :
  cache_ok cache ->
  do_proxy cfg cache clk client_get request url convert_github
  = (reply, cache', events) ->
  forall key,
    key <> cache_key_of (target_url url convert_github) ->
    cached cache' key = None \/ cached cache' key = cached cache key.
Proof.
  intros Hok Hrun key Hkey. unfold do_proxy in Hrun. cbv zeta in Hrun.
  change (if convert_github then github_to_raw (normalize_url_param url)
          else normalize_url_param url)
    with (target_url url convert_github) in Hrun.
  split_run Hrun; injection Hrun as <- <- <-; try (now right);
    match goal with
    | E : TTLCache.getitem _ _ _ = _ |- _ =>
        right; exact (ItemFacts.getitem_other _ _ _ _ _ _ E Hkey)
    | E : TTLCache.setitem _ _ _ _ = _ |- _ =>
        exact (ItemFacts.setitem_other _ _ _ _ _ _ _ (proj1 Hok) E Hkey)
    end.
Qed.

End CacheUse.

(* ================================================================== *)
(** * More on the rewriter and the routes *)

Module KeywordFacts.

(** A literal without a letter that [re.I] folds beyond ASCII takes
    nothing but a spelling of itself. *)
Lemma run_lits_fold_inv t :
  (forall c, In c (list_ascii_of_string t) ->
             fold_extras (Str.lower_char c) = []) ->
  forall pos s caps k res,
    run true (lits t) pos s caps k = Some res ->
    exists p s', s = p ++ s' /\ Str.lower p = Str.lower t.
Proof.
  induction t as [|l t IH]; intros Hplain pos s caps k res H.
  - exists "", s. auto.
  - cbn [run lits] in H. destruct s as [|d s]; [discriminate H|].
    cbn [eat_lit] in H. rewrite (Hplain l) in H by now left.
    destruct (Ascii.eqb_spec (Str.lower_char d) (Str.lower_char l)) as [E|_];
      [|discriminate H].
    apply IH in H as (p & s' & -> & Hp); [|intros c Hc; apply Hplain; now right].
    exists (String d p), s'. simpl. now rewrite E, Hp.
Qed.

Lemma no_slash_lower x :
  no_char "/" (Str.lower x) = true -> no_char "/" x = true.
Proof.
  unfold no_char. induction x as [|c x IH]; simpl; [reflexivity|].
  intros H. apply andb_prop in H as [Hc Hx]. rewrite (IH Hx), andb_true_r.
  destruct (Ascii.eqb_spec c "/") as [->|_]; [discriminate Hc|reflexivity].
Qed.

(** Two texts that agree up to their first slash. *)
Lemma same_up_to_slash a b x y :
  no_char "/" a = true -> no_char "/" b = true ->
  a ++ String "/" x = b ++ String "/" y -> a = b.
Proof.
  unfold no_char. revert b; induction a as [|c a IH]; intros [|d b] Ha Hb E;
    simpl in *.
  - reflexivity.
  - injection E as <- _. now rewrite Ascii.eqb_refl in Hb.
  - injection E as -> _. now rewrite Ascii.eqb_refl in Ha.
  - injection E as <- E. apply andb_prop in Ha as [_ Ha].
    apply andb_prop in Hb as [_ Hb]. f_equal. now apply IH.
Qed.

(** The keyword of the pattern does not take another keyword. *)
Lemma keyword_rejected word kw rest r pos caps k :
  (forall c, In c (list_ascii_of_string (String "/" (word ++ "/"))) ->
             fold_extras (Str.lower_char c) = []) ->
  no_char "/" word = true -> no_char "/" kw = true ->
  Str.lower kw <> Str.lower word ->
  run true (Seq (lits (String "/" (word ++ "/"))) r) pos
      (String "/" (kw ++ String "/" rest)) caps k = None.
Proof.
  intros Hplain Hword Hkw Hne.
  destruct (run true (Seq (lits (String "/" (word ++ "/"))) r) pos
                (String "/" (kw ++ String "/" rest)) caps k) as [res|] eqn:E;
    [exfalso|reflexivity].
  cbn [run] in E. apply (run_lits_fold_inv _ Hplain) in E as (p & s' & E & Hp).
  assert (Hlow : forall a b, Str.lower (a ++ b) = Str.lower a ++ Str.lower b)
    by (intros a b; induction a; simpl; congruence).
  change (String "/" (word ++ "/")) with ("/" ++ (word ++ "/")) in Hp.
  rewrite !Hlow in Hp.
  apply StrFacts.lower_app_inv in Hp as (p1 & q & -> & H1 & Hq).
  apply StrFacts.lower_app_inv in Hq as (p2 & p3 & -> & H2 & H3).
  apply StrFacts.lower_cons_inv in H1 as (c1 & e1 & -> & Hc1 & He1).
  destruct e1; [|discriminate He1].
  apply StrFacts.lower_cons_inv in H3 as (c3 & e3 & -> & Hc3 & He3).
  destruct e3; [|discriminate He3].
  apply StrFacts.lower_char_not_letter in Hc1; [subst c1|reflexivity].
  apply StrFacts.lower_char_not_letter in Hc3; [subst c3|reflexivity].
  simpl in E. injection E as E. rewrite StrFacts.app_assoc in E. simpl in E.
  apply same_up_to_slash in E; [congruence|assumption|].
  apply no_slash_lower. rewrite H2.
  clear - Hword. unfold no_char in *.
  induction word as [|c w IH]; simpl in *; [reflexivity|].
  apply andb_prop in Hword as [Hc Hw]. rewrite (IH Hw), andb_true_r.
  destruct c as [[] [] [] [] [] [] [] []]; try reflexivity; discriminate Hc.
Qed.

(** The tail of a GitHub pattern on a page that is not of its keyword. *)
Lemma run_tail_rejected word pos owner repo kw rest caps k :
  (forall c, In c (list_ascii_of_string (String "/" (word ++ "/"))) ->
             fold_extras (Str.lower_char c) = []) ->
  no_char "/" word = true ->
  owner <> "" -> no_char "/" owner = true ->
  repo <> "" -> no_char "/" repo = true ->
  no_char "/" kw = true -> Str.lower kw <> Str.lower word ->
  run true (gh_tail (String "/" (word ++ "/"))) pos
      (owner ++ "/" ++ repo ++ "/" ++ kw ++ "/" ++ rest) caps k = None.
Proof.
  intros Hplain Hword Ho Hos Hr Hrs Hkw Hne. unfold gh_tail.
  rewrite ReFacts.run_group_plus; auto using ReFacts.slash_rejects.
  change ("/" ++ repo ++ "/" ++ kw ++ "/" ++ rest)
    with (String "/" (repo ++ "/" ++ kw ++ "/" ++ rest)).
  rewrite ReFacts.run_lit.
  rewrite ReFacts.run_group_plus; auto.
  - now apply keyword_rejected.
  - intros; now apply (ReFacts.slash_lits_rejects (word ++ "/")).
Qed.

End KeywordFacts.

(** X14. Only /blob/ and /raw/ links are rewritten: a GitHub URL with any
    other word after the repository name (tree, commits, issues, ...)
    comes back unchanged. *)
Theorem other_github_pages_pass_through pre owner repo kw rest :
  In (Str.lower pre) github_prefixes ->
  owner <> "" -> no_char "/" owner = true ->
  repo <> "" -> no_char "/" repo = true ->
  no_char "/" kw = true ->
  Str.lower kw <> "blob" -> Str.lower kw <> "raw" ->
  github_to_raw (pre ++ owner ++ "/" ++ repo ++ "/" ++ kw ++ "/" ++ rest)
  = pre ++ owner ++ "/" ++ repo ++ "/" ++ kw ++ "/" ++ rest.
Proof.
  intros Hpre Ho Hos Hr Hrs Hkw Hblob Hraw. unfold github_to_raw, re_match.
  rewrite gh_blob_regex_shape, gh_tree_regex_shape.
  rewrite !ReFacts.run_head by assumption.
  rewrite (KeywordFacts.run_tail_rejected "blob"),
          (KeywordFacts.run_tail_rejected "raw");
    try assumption; try reflexivity;
    intros c Hc; simpl in Hc; intuition (subst; reflexivity).
Qed.

Lemma other_github_pages_pass_through_witness :
  github_to_raw "https://github.com/python/cpython/tree/main/Lib"
  = "https://github.com/python/cpython/tree/main/Lib".
Proof.
  apply (other_github_pages_pass_through
           "https://github.com/" "python" "cpython" "tree" "main/Lib");
    try discriminate; try reflexivity.
  simpl; auto.
Defined.

Section Dispatch.

Context {lib : PyLib}.

(** X15. A path of one line is served as follows: "/" by [index], which
    answers the banner and touches neither cache nor network; the four
    paths that FastAPI registers for itself ("/openapi.json", "/docs",
    "/docs/oauth2-redirect", "/redoc") by FastAPI's own pages, which come
    first and never reach [do_proxy]; "/" followed by anything else by
    [proxy_path], which proxies that text without rewriting. *)
Theorem paths_are_proxied_as_they_are cfg cache clk client_get request x :
  no_char LF x = true ->
  app cfg cache clk client_get request ("/" ++ x)
  = Some (if String.eqb x "" then
            (PlainTextResponse
               "a high performance web proxy website based on python3",
             cache, [])
          else if String.eqb x "openapi.json" then
            (Documentation "openapi", cache, [])
          else if String.eqb x "docs" then
            (Documentation "swagger_ui_html", cache, [])
          else if String.eqb x "docs/oauth2-redirect" then
            (Documentation "swagger_ui_redirect", cache, [])
          else if String.eqb x "redoc" then
            (Documentation "redoc_html", cache, [])
          else do_proxy cfg cache clk client_get request x false).
Proof.
  intros Hx. unfold app, routes. cbn [first_match].
  destruct x as [|c x]; [reflexivity|].
  assert (Hpath : no_char LF ("/" ++ String c x) = true) by exact Hx.
  unfold path_openapi, path_docs, path_oauth2_redirect, path_redoc.
  rewrite !(RouteFacts.fixed_path _ _ Hpath).
  change (String.eqb ("/" ++ String c x) "/openapi.json")
    with (String.eqb (String c x) "openapi.json").
  change (String.eqb ("/" ++ String c x) "/docs")
    with (String.eqb (String c x) "docs").
  change (String.eqb ("/" ++ String c x) "/docs/oauth2-redirect")
    with (String.eqb (String c x) "docs/oauth2-redirect").
  change (String.eqb ("/" ++ String c x) "/redoc")
    with (String.eqb (String c x) "redoc").
  change (String.eqb (String c x) "") with false. cbv iota.
  destruct (String.eqb (String c x) "openapi.json"); [reflexivity|].
  destruct (String.eqb (String c x) "docs"); [reflexivity|].
  destruct (String.eqb (String c x) "docs/oauth2-redirect"); [reflexivity|].
  destruct (String.eqb (String c x) "redoc"); [reflexivity|].
  assert (Hindex : re_match false path_index ("/" ++ String c x) = None).
  { unfold re_match, path_index, seq. cbn [append].
    rewrite ReFacts.run_bol, ReFacts.run_lit. cbn [run at_eol].
    unfold no_char in Hx. simpl in Hx. apply andb_prop in Hx as [Hc _].
    destruct x; [|reflexivity].
    destruct (Ascii.eqb c LF); [discriminate Hc|reflexivity]. }
  rewrite Hindex.
  assert (Hproxy : re_match false path_proxy ("/" ++ String c x)
                   = Some [String c x]).
  { unfold re_match, path_proxy, seq. cbn [append].
    rewrite ReFacts.run_bol, ReFacts.run_lit.
    rewrite <- (StrFacts.app_empty (String c x)) at 1.
    now rewrite ReFacts.run_group_star; auto using ReFacts.eol_rejects. }
  now rewrite Hproxy.
Qed.

End Dispatch.

(* ================================================================== *)
(** * Replies from the cache *)

Section Replay.

Context {lib : PyLib}.

(** X16. A reply that comes without a fetch comes from a live item: the
    cache held exactly that body, those headers and that status under the
    key of the target URL, not yet expired at either reading of the clock.
    Serving it renews nothing: afterwards every key, the served one
    included, has the item and the expiry time it had before. *)
Theorem unfetched_reply_is_a_live_item cfg cache clk client_get request url
        convert_github content status headers cache' :
  do_proxy cfg cache clk client_get request url convert_github
  = (Response content status headers, cache', []) ->
  (exists expires,
     cached cache (cache_key_of (target_url url convert_github))
     = Some ((content, headers, status), expires)
     /\ at_contains clk < expires /\ at_getitem clk < expires)
  /\ (forall key, cached cache' key = cached cache key).
Proof.
  intros Hrun.
  destruct (allowed_scheme (normalize_url_param url)) as [[|]|] eqn:Ha;
    [|unfold do_proxy in Hrun; rewrite Ha in Hrun; discriminate Hrun..].
  destruct (cache_hit cache (cache_key_of (target_url url convert_github))
                      (at_contains clk)) eqn:Hh.
  - destruct cache as [c|]; [|discriminate Hh]. simpl in Hh.
    rewrite (do_proxy_hit _ _ _ _ _ _ _ Ha Hh) in Hrun.
    unfold TTLCache.contains in Hh. unfold TTLCache.getitem in Hrun.
    destruct (TTLCache.find _ _) as [[[[body hdrs] code] expires]|] eqn:Hf;
      [|discriminate Hrun].
    destruct (Z.ltb_spec (at_getitem clk) expires) as [Hlt|_];
      [|discriminate Hrun].
    injection Hrun as Hreply <-. unfold Response_init in Hreply.
    destruct (init_headers hdrs); [discriminate Hreply|].
    injection Hreply as -> -> ->. split.
    + exists expires. simpl. rewrite Hf. repeat split; [|assumption].
      now apply Z.ltb_lt.
    + intros key. simpl.
      destruct (String.eqb_spec key
                  (cache_key_of (target_url url convert_github))) as [->|Hne].
      * now rewrite CacheFacts.find_reinserted.
      * now apply ItemFacts.find_reinserted_other.
  - destruct (miss_fetches cfg cache clk client_get request url convert_github
                Ha Hh) as [tail E].
    rewrite Hrun in E. discriminate E.
Qed.

End Replay.

(* ================================================================== *)
(** * The further properties on concrete requests *)

Lemma fetched_response_is_delivered_witness :
  body_of_reply (fst (fst Example.large)) = Some "hello"
  /\ status_of_reply (fst (fst Example.large)) = Some 200
  /\ headers_of_reply (fst (fst Example.large))
     = Some [("content-type", "text/plain"); ("content-length", "2097152")].
Proof.
  destruct (fetched_response_is_delivered (lib := cpython)
              default_config (cache_at_start default_config) (Example.clock 0)
              (Example.upstream (Example.response 200 "2097152" "hello"))
              Example.plain Example.url false
              (fst (fst Example.large)) (snd (fst Example.large))
              (snd Example.large)
              Example.url (out_headers_of default_config Example.plain)
              (Example.response 200 "2097152" "hello"))
    as [(_ & H)|[(H & _)|(c & n & _ & _ & _ & _ & H & _)]];
    [reflexivity|now left|reflexivity|exact H
     |vm_compute in H; discriminate H..].
Defined.

Lemma expired_response_is_fetched_again_witness :
  exists tail,
    snd Scenario.late
    = Fetch Example.url (out_headers_of default_config Example.plain) :: tail.
Proof.
  apply (expired_response_is_fetched_again (lib := cpython)
           default_config (cache_at_start default_config)
           (Example.clock 0)
           (Example.upstream (Example.response 200 "5" "hello"))
           Example.ranged Example.url false
           (fst (fst (Example.first 200))) (snd (fst (Example.first 200)))
           (snd (Example.first 200))
           (Example.clock 60) Example.upstream_down Example.plain
           Example.url false
           Example.url (out_headers_of default_config Example.ranged)
           (Example.response 200 "5" "hello") 5);
    first [reflexivity | discriminate | now left | repeat split].
Defined.

Lemma caching_disabled_witness :
  snd (fst Scenario.uncached) = None
  /\ snd Scenario.uncached
     = [Fetch Example.url (out_headers_of Scenario.no_cache Example.plain)]
  /\ fst (fst Scenario.uncached)
     = StreamingResponse ["hello"] 200
         [("content-type", "text/plain"); ("content-length", "5")].
Proof.
  destruct (caching_disabled (lib := cpython)
              Scenario.no_cache None (Example.clock 0)
              (Example.upstream (Example.response 200 "5" "hello"))
              Example.plain Example.url false
              (fst (fst Scenario.uncached)) (snd (fst Scenario.uncached))
              (snd Scenario.uncached))
    as (_ & _ & H1 & _ & _ & H2);
    [discriminate|simpl; discriminate|reflexivity|].
  destruct H2 as [H2 H3]; [reflexivity|].
  split; [exact H1|]. split; [exact H2|].
  destruct (H3 (Example.response 200 "5" "hello") eq_refl) as (_ & H4 & _).
  apply H4. reflexivity.
Defined.

Lemma cache_stays_well_formed_witness :
  cache_ok (snd (fst (Example.first 200)))
  /\ cache_ok (snd (fst Scenario.other)).
Proof.
  split.
  - refine (proj2 (cache_stays_well_formed (lib := cpython)
                     default_config (cache_at_start default_config)
                     (Example.clock 0)
                     (Example.upstream (Example.response 200 "5" "hello"))
                     Example.ranged Example.url false
                     (fst (fst (Example.first 200)))
                     (snd (fst (Example.first 200)))
                     (snd (Example.first 200)) _ _));
      [simpl; split; [constructor|discriminate]|reflexivity].
  - refine (proj2 (cache_stays_well_formed (lib := cpython)
                     default_config (snd (fst (Example.first 200)))
                     (Example.clock 10)
                     (Example.upstream (Example.response 200 "3" "abc"))
                     Example.plain Scenario.other_url false
                     (fst (fst Scenario.other)) (snd (fst Scenario.other))
                     (snd Scenario.other) _ _));
      [|reflexivity].
    simpl. split; [|discriminate].
    repeat constructor. simpl; tauto.
Defined.

Lemma other_keys_untouched_witness :
  cached (snd (fst Scenario.other)) (cache_key_of Example.url) = None
  \/ cached (snd (fst Scenario.other)) (cache_key_of Example.url)
     = cached (snd (fst (Example.first 200))) (cache_key_of Example.url).
Proof.
  apply (other_keys_untouched (lib := cpython)
           default_config (snd (fst (Example.first 200)))
           (Example.clock 10)
           (Example.upstream (Example.response 200 "3" "abc"))
           Example.plain Scenario.other_url false
           (fst (fst Scenario.other)) (snd (fst Scenario.other))
           (snd Scenario.other));
    [|reflexivity|discriminate].
  simpl. split; [|discriminate].
  repeat constructor. simpl; tauto.
Defined.

Lemma paths_are_proxied_as_they_are_witness :
  app default_config (cache_at_start default_config) (Example.clock 0)
      Example.upstream_down Example.plain "/https://example.com/a.txt"
  = Some (do_proxy default_config (cache_at_start default_config)
                   (Example.clock 0) Example.upstream_down Example.plain
                   "https://example.com/a.txt" false)
  /\ app default_config (cache_at_start default_config) (Example.clock 0)
         Example.upstream_down Example.plain "/docs"
     = Some (Documentation "swagger_ui_html", cache_at_start default_config,
             []).
Proof.
  split.
  - apply (paths_are_proxied_as_they_are (lib := cpython)
             default_config (cache_at_start default_config) (Example.clock 0)
             Example.upstream_down Example.plain "https://example.com/a.txt").
    reflexivity.
  - apply (paths_are_proxied_as_they_are (lib := cpython)
             default_config (cache_at_start default_config) (Example.clock 0)
             Example.upstream_down Example.plain "docs").
    reflexivity.
Defined.

Lemma unfetched_reply_is_a_live_item_witness :
  (exists expires,
     cached (snd (fst (Example.first 200)))
            (cache_key_of (target_url Example.url false))
     = Some (("hello",
              [("content-type", "text/plain"); ("content-length", "5")],
              200), expires)
     /\ at_contains (Example.clock 59) < expires
     /\ at_getitem (Example.clock 59) < expires)
  /\ (forall key,
        cached (snd (fst (Example.second 200))) key
        = cached (snd (fst (Example.first 200))) key).
Proof.
  apply (unfetched_reply_is_a_live_item (lib := cpython)
           default_config (snd (fst (Example.first 200))) (Example.clock 59)
           Example.upstream_down Example.plain Example.url false).
  reflexivity.
Defined.
